(** * The WebSocket connection hook ([useWebSocket.ts]) as a state machine

    The hook of [src/frontend/src/hooks/useWebSocket.ts] keeps a handful of
    React state cells and refs, opens browser [WebSocket] objects and reacts
    to their events.  Here its imperative core is embedded as pure functions
    over an explicit state: the React cells, the refs, the [WebSocket]
    objects constructed so far, the pending timers, and the trace of
    consumer callbacks ([onOpen], [onMessage], [onError], [onClose]).

    Platform pieces the hook calls are modelled next to it: [JSON.parse]
    as a character-level automaton for the JSON grammar, JavaScript
    truthiness ([||]), property reads, and the [WebSocket] ready-state
    protocol ([close()], [send()], event dispatch).

    The code around the hook follows: its auto-connect effect, the
    container page that builds the address of the log stream and consumes
    the hook's messages, and the log viewer with its own message handler
    and its level filter. *)

From Stdlib Require Import ZArith NArith String Ascii.
From stdpp Require Import base option list gmap.

Set Warnings "-register-all".

Local Open Scope N_scope.

(** ** JavaScript values *)

(** A JavaScript string is a sequence of UTF-16 code units. *)
Definition JsString : Type := list N.

(** Code units of an ASCII literal written in this file. *)
Definition js (s : string) : JsString :=
  (fun a : ascii => N_of_ascii a) <$> list_ascii_of_string s.

(** The same, with every apostrophe standing for a quotation mark (code
    unit 34), to write JSON texts legibly. *)
Definition jsq (s : string) : JsString :=
  (fun c => if c =? 39 then 34 else c) <$> js s.

(** A number as JSON writes it: sign, decimal mantissa and power of ten,
    i.e. [± num_mant × 10 ^ num_exp].  Only its truthiness is ever
    inspected by the hook. *)
Record JsNumber : Type := mkNumber {
  num_neg : bool;
  num_mant : N;
  num_exp : Z
}.

(** The values [JSON.parse] can return.  An object is its list of own
    properties, one entry per key. *)
Inductive JsValue : Type :=
| JNull
| JBool (b : bool)
| JNumber (n : JsNumber)
| JString (s : JsString)
| JArray (elems : list JsValue)
| JObject (fields : list (JsString * JsValue)).

(** Does the decimal round to the double [0]?  The smallest positive double
    is [2^-1074]; round-to-nearest-even sends everything up to and including
    [2^-1075] to zero. *)
Definition number_is_zero (n : JsNumber) : bool :=
  (num_mant n =? 0)
  || ((num_exp n <? 0)%Z
      && (Z.of_N (num_mant n) * 2 ^ 1075 <=? 10 ^ (- num_exp n))%Z).

(** [ToBoolean]: what [x || y] tests of [x]. *)
Definition truthy (v : JsValue) : bool :=
  match v with
  | JNull => false
  | JBool b => b
  | JNumber n => negb (number_is_zero n)
  | JString s => match s with [] => false | _ => true end
  | JArray _ | JObject _ => true
  end.

(** [x || y], where [None] stands for an [undefined] [x]. *)
Definition js_or (x : option JsValue) (y : JsValue) : JsValue :=
  match x with
  | Some v => if truthy v then v else y
  | None => y
  end.

(** The left operand of [||] does not count: [undefined] or a falsy value. *)
Definition absent_or_falsy (x : option JsValue) : bool :=
  match x with
  | Some v => negb (truthy v)
  | None => true
  end.

Definition JsString_eqb (a b : JsString) : bool := bool_decide (a = b).

Fixpoint own_property (k : JsString) (fields : list (JsString * JsValue))
  : option JsValue :=
  match fields with
  | [] => None
  | (k', v) :: rest => if JsString_eqb k k' then Some v else own_property k rest
  end.

(** Defining a property that already exists replaces its value in place. *)
Fixpoint define_property (k : JsString) (v : JsValue)
  (fields : list (JsString * JsValue)) : list (JsString * JsValue) :=
  match fields with
  | [] => [(k, v)]
  | (k', v') :: rest =>
      if JsString_eqb k k' then (k, v) :: rest
      else (k', v') :: define_property k v rest
  end.

(** The read [v.k] for the three keys the hook reads ([type], [data],
    [timestamp]): a [TypeError] on [null] (outer [None]), the own property
    of an object, and [undefined] (inner [None]) otherwise, as none of the
    three is a property of arrays, strings, numbers or booleans. *)
Definition get_property (v : JsValue) (k : JsString) : option (option JsValue) :=
  match v with
  | JNull => None
  | JObject fields => Some (own_property k fields)
  | _ => Some None
  end.

(** ** [JSON.parse] *)

Module Json.

Definition is_ws (c : N) : bool :=
  (c =? 9) || (c =? 10) || (c =? 13) || (c =? 32).

Definition digit_of (c : N) : option N :=
  if (48 <=? c) && (c <=? 57) then Some (c - 48) else None.

Definition hex_of (c : N) : option N :=
  if (48 <=? c) && (c <=? 57) then Some (c - 48)
  else if (97 <=? c) && (c <=? 102) then Some (c - 87)
  else if (65 <=? c) && (c <=? 70) then Some (c - 55)
  else None.

(** Where the scanner stands inside a number literal. *)
Inductive NumSt : Type :=
| NMinus | NZero | NInt | NDot | NFrac | NE | NESign | NExp.

Record NumAcc : Type := mkAcc {
  a_neg : bool;     (* leading minus *)
  a_mant : N;       (* integer and fraction digits read so far *)
  a_scale : N;      (* how many of them are fraction digits *)
  a_eneg : bool;    (* sign of the exponent *)
  a_exp : N         (* exponent digits *)
}.

Definition acc_number (a : NumAcc) : JsNumber :=
  mkNumber (a_neg a) (a_mant a)
    ((if a_eneg a then - Z.of_N (a_exp a) else Z.of_N (a_exp a))
     - Z.of_N (a_scale a))%Z.

Definition num_accepting (st : NumSt) : bool :=
  match st with
  | NZero | NInt | NFrac | NExp => true
  | _ => false
  end.

(** One more code unit of a number literal, or [None] if [c] cannot
    continue it. *)
Definition num_step (st : NumSt) (a : NumAcc) (c : N) : option (NumSt * NumAcc) :=
  let mant d := mkAcc (a_neg a) (a_mant a * 10 + d) (a_scale a) (a_eneg a) (a_exp a) in
  let frac d := mkAcc (a_neg a) (a_mant a * 10 + d) (a_scale a + 1) (a_eneg a) (a_exp a) in
  let expo d := mkAcc (a_neg a) (a_mant a) (a_scale a) (a_eneg a) (a_exp a * 10 + d) in
  let is_e := (c =? 101) || (c =? 69) in
  match st with
  | NMinus =>
      match digit_of c with
      | Some 0 => Some (NZero, a)
      | Some d => Some (NInt, mant d)
      | None => None
      end
  | NZero =>
      if c =? 46 then Some (NDot, a)
      else if is_e then Some (NE, a) else None
  | NInt =>
      match digit_of c with
      | Some d => Some (NInt, mant d)
      | None =>
          if c =? 46 then Some (NDot, a)
          else if is_e then Some (NE, a) else None
      end
  | NDot =>
      match digit_of c with Some d => Some (NFrac, frac d) | None => None end
  | NFrac =>
      match digit_of c with
      | Some d => Some (NFrac, frac d)
      | None => if is_e then Some (NE, a) else None
      end
  | NE =>
      match digit_of c with
      | Some d => Some (NExp, expo d)
      | None =>
          if c =? 43 then Some (NESign, a)
          else if c =? 45
               then Some (NESign, mkAcc (a_neg a) (a_mant a) (a_scale a) true (a_exp a))
               else None
      end
  | NESign | NExp =>
      match digit_of c with Some d => Some (NExp, expo d) | None => None end
  end.

(** An array or object whose closing bracket has not been read yet. *)
Inductive Frame : Type :=
| FArr (elems : list JsValue)
| FObj (fields : list (JsString * JsValue)) (key : option JsString).

(** What the grammar allows next, between tokens. *)
Inductive Expect : Type :=
| EValue                 (* a value *)
| EValueOrEnd            (* just after '[' *)
| EKeyOrEnd              (* just after '{' *)
| EKey                   (* after ',' inside an object *)
| EColon                 (* after a key *)
| ECommaOrEnd            (* after a value inside an array or object *)
| EDone (v : JsValue).   (* the top-level value is complete *)

(** The token being scanned. *)
Inductive Lex : Type :=
| LIdle
| LStr (acc : JsString)
| LEsc (acc : JsString)
| LUni (acc : JsString) (k : nat) (v : N)
| LNum (st : NumSt) (a : NumAcc)
| LLit (rest : JsString) (v : JsValue).

Record PState : Type := mkP {
  p_stack : list Frame;
  p_expect : Expect;
  p_lex : Lex
}.

Definition p_init : PState := mkP [] EValue LIdle.

(** A complete value goes to the innermost open container, or ends the text. *)
Definition deliver (v : JsValue) (stk : list Frame) : option PState :=
  match stk with
  | [] => Some (mkP [] (EDone v) LIdle)
  | FArr vs :: k => Some (mkP (FArr (vs ++ [v]) :: k) ECommaOrEnd LIdle)
  | FObj fs (Some key) :: k =>
      Some (mkP (FObj (define_property key v fs) None :: k) ECommaOrEnd LIdle)
  | FObj _ None :: _ => None
  end.

(** A complete string literal is a key or a value, by position. *)
Definition string_done (s : JsString) (stk : list Frame) (ex : Expect)
  : option PState :=
  match ex with
  | EKey | EKeyOrEnd =>
      match stk with
      | FObj fs None :: k => Some (mkP (FObj fs (Some s) :: k) EColon LIdle)
      | _ => None
      end
  | EValue | EValueOrEnd => deliver (JString s) stk
  | _ => None
  end.

Definition start_value (stk : list Frame) (ex : Expect) (c : N) : option PState :=
  let zero := mkAcc false 0 0 false 0 in
  if c =? 34 then Some (mkP stk ex (LStr []))
  else if c =? 123 then Some (mkP (FObj [] None :: stk) EKeyOrEnd LIdle)
  else if c =? 91 then Some (mkP (FArr [] :: stk) EValueOrEnd LIdle)
  else if c =? 45 then Some (mkP stk ex (LNum NMinus (mkAcc true 0 0 false 0)))
  else if c =? 116 then Some (mkP stk ex (LLit (js "rue") (JBool true)))
  else if c =? 102 then Some (mkP stk ex (LLit (js "alse") (JBool false)))
  else if c =? 110 then Some (mkP stk ex (LLit (js "ull") JNull))
  else match digit_of c with
       | Some 0 => Some (mkP stk ex (LNum NZero zero))
       | Some d => Some (mkP stk ex (LNum NInt (mkAcc false d 0 false 0)))
       | None => None
       end.

Definition close_array (stk : list Frame) : option PState :=
  match stk with
  | FArr vs :: k => deliver (JArray vs) k
  | _ => None
  end.

Definition close_object (stk : list Frame) : option PState :=
  match stk with
  | FObj fs None :: k => deliver (JObject fs) k
  | _ => None
  end.

(** A code unit read between tokens. *)
Definition step_idle (stk : list Frame) (ex : Expect) (c : N) : option PState :=
  if is_ws c then Some (mkP stk ex LIdle)
  else
    match ex with
    | EValue => start_value stk ex c
    | EValueOrEnd => if c =? 93 then close_array stk else start_value stk ex c
    | EKeyOrEnd =>
        if c =? 125 then close_object stk
        else if c =? 34 then Some (mkP stk ex (LStr [])) else None
    | EKey => if c =? 34 then Some (mkP stk ex (LStr [])) else None
    | EColon => if c =? 58 then Some (mkP stk EValue LIdle) else None
    | ECommaOrEnd =>
        if c =? 44 then
          match stk with
          | FArr _ :: _ => Some (mkP stk EValue LIdle)
          | FObj _ None :: _ => Some (mkP stk EKey LIdle)
          | _ => None
          end
        else if c =? 93 then close_array stk
        else if c =? 125 then close_object stk
        else None
    | EDone _ => None
    end.

Definition escape_of (c : N) : option N :=
  if c =? 34 then Some 34            (* quotation mark *)
  else if c =? 92 then Some 92       (* reverse solidus *)
  else if c =? 47 then Some 47       (* solidus *)
  else if c =? 98 then Some 8        (* b: backspace *)
  else if c =? 102 then Some 12      (* f: form feed *)
  else if c =? 110 then Some 10      (* n: line feed *)
  else if c =? 114 then Some 13      (* r: carriage return *)
  else if c =? 116 then Some 9       (* t: tab *)
  else None.

(** One code unit of the text. *)
Definition step (st : PState) (c : N) : option PState :=
  let stk := p_stack st in
  let ex := p_expect st in
  match p_lex st with
  | LIdle => step_idle stk ex c
  | LStr acc =>
      if c =? 34 then string_done acc stk ex
      else if c =? 92 then Some (mkP stk ex (LEsc acc))
      else if c <? 32 then None
      else Some (mkP stk ex (LStr (acc ++ [c])))
  | LEsc acc =>
      if c =? 117 then Some (mkP stk ex (LUni acc 0 0))
      else match escape_of c with
           | Some e => Some (mkP stk ex (LStr (acc ++ [e])))
           | None => None
           end
  | LUni acc k v =>
      match hex_of c with
      | Some h =>
          if bool_decide (k = 3%nat)
          then Some (mkP stk ex (LStr (acc ++ [v * 16 + h])))
          else Some (mkP stk ex (LUni acc (S k) (v * 16 + h)))
      | None => None
      end
  | LNum nst a =>
      match num_step nst a c with
      | Some (nst', a') => Some (mkP stk ex (LNum nst' a'))
      | None =>
          if num_accepting nst
          then st' ← deliver (JNumber (acc_number a)) stk;
               step_idle (p_stack st') (p_expect st') c
          else None
      end
  | LLit rest v =>
      match rest with
      | [] => None
      | r :: rest' =>
          if c =? r then
            match rest' with
            | [] => deliver v stk
            | _ => Some (mkP stk ex (LLit rest' v))
            end
          else None
      end
  end.

Fixpoint steps (st : PState) (text : JsString) : option PState :=
  match text with
  | [] => Some st
  | c :: rest => st' ← step st c; steps st' rest
  end.

(** End of text: a number literal may end here; anything else that is
    still open is a syntax error. *)
Definition finish (st : PState) : option JsValue :=
  st' ← match p_lex st with
        | LIdle => Some st
        | LNum nst a =>
            if num_accepting nst
            then deliver (JNumber (acc_number a)) (p_stack st) else None
        | _ => None
        end;
  match p_expect st', p_stack st' with
  | EDone v, [] => Some v
  | _, _ => None
  end.

End Json.

(** [JSON.parse(text)]: [None] when it throws [SyntaxError]. *)
Definition JSON_parse (text : JsString) : option JsValue :=
  st ← Json.steps Json.p_init text; Json.finish st.

Local Close Scope N_scope.

(** ** The hook's data *)

(** [WebSocketMessage].  TypeScript declares [type] and [timestamp] as
    strings, but at run time each field holds whatever the frame carried. *)
Record WebSocketMessage : Type := mkMessage {
  type : JsValue;
  data : JsValue;
  timestamp : JsValue
}.

(** [WebSocket.readyState]. *)
Inductive ReadyState : Type := CONNECTING | OPEN | CLOSING | CLOSED.

(** [connectionStatus]. *)
Inductive Status : Type := Disconnected | Connecting | Connected | Error.

(** A [WebSocket] object: its ready state, the texts handed to [send()]
    while it was open, and the arguments of the [close()] call that started
    its closing, if any. *)
Record Socket : Type := mkSocket {
  sock_url : JsString;
  readyState : ReadyState;
  sent : list JsString;
  closing : option (option Z * option JsString)
}.

(** A consumer callback invocation; [sock] is the event's target. *)
Inductive Callback : Type :=
| CbOpen (sock : nat)
| CbMessage (sock : nat) (m : WebSocketMessage)
| CbError (sock : nat)
| CbClose (sock : nat) (wasClean : bool) (code : Z) (reason : JsString).

(** What [JSON.stringify] does with a value: a text, [undefined] (for
    [undefined], functions and symbols), or a [TypeError] (cycles, BigInt). *)
Inductive Stringified : Type :=
| Text (t : JsString)
| Undefined
| Throws.

(** The argument of [sendMessage] is [any].  The hook only asks whether it
    is a string; any other value is known here by an identifier, and the
    environment says what [JSON.stringify] makes of it. *)
Inductive JsAny : Type :=
| AString (t : JsString)
| AOther (id : nat).

(** The hook's arguments and the two platform functions whose results the
    model takes as given: whether [new WebSocket(url)] accepts the URL
    (it throws [SyntaxError] otherwise) and [JSON.stringify], whose number
    formatting is floating-point. *)
Record Env : Type := mkEnv {
  url : option JsString;
  reconnectAttempts : Z;
  reconnectInterval : Z;
  WebSocket_accepts : bool;
  JSON_stringify : nat -> Stringified
}.

(** The state: the five [useState] cells, the four refs, and the world
    around them.  A socket is named by its index in [sockets]; a timer by
    the positive id [setTimeout] returned. *)
Record Hook : Type := mkHook {
  isConnected : bool;
  isConnecting : bool;
  error : option string;
  lastMessage : option WebSocketMessage;
  connectionStatus : Status;
  ws : option nat;
  reconnectTimeoutRef : option nat;
  reconnectCountRef : Z;
  isMountedRef : bool;
  sockets : list Socket;
  timers : gset nat;
  nextTimer : nat;
  calls : list Callback
}.

Definition initial : Hook :=
  {| isConnected := false; isConnecting := false; error := None;
     lastMessage := None; connectionStatus := Disconnected;
     ws := None; reconnectTimeoutRef := None; reconnectCountRef := 0;
     isMountedRef := true;
     sockets := []; timers := ∅; nextTimer := 1; calls := [] |}.

(** *** Field updates *)

Definition setIsConnected (b : bool) (s : Hook) : Hook :=
  mkHook b (isConnecting s) (error s) (lastMessage s) (connectionStatus s)
    (ws s) (reconnectTimeoutRef s) (reconnectCountRef s) (isMountedRef s)
    (sockets s) (timers s) (nextTimer s) (calls s).

Definition setIsConnecting (b : bool) (s : Hook) : Hook :=
  mkHook (isConnected s) b (error s) (lastMessage s) (connectionStatus s)
    (ws s) (reconnectTimeoutRef s) (reconnectCountRef s) (isMountedRef s)
    (sockets s) (timers s) (nextTimer s) (calls s).

Definition setError (e : option string) (s : Hook) : Hook :=
  mkHook (isConnected s) (isConnecting s) e (lastMessage s) (connectionStatus s)
    (ws s) (reconnectTimeoutRef s) (reconnectCountRef s) (isMountedRef s)
    (sockets s) (timers s) (nextTimer s) (calls s).

Definition setLastMessage (m : option WebSocketMessage) (s : Hook) : Hook :=
  mkHook (isConnected s) (isConnecting s) (error s) m (connectionStatus s)
    (ws s) (reconnectTimeoutRef s) (reconnectCountRef s) (isMountedRef s)
    (sockets s) (timers s) (nextTimer s) (calls s).

Definition setConnectionStatus (c : Status) (s : Hook) : Hook :=
  mkHook (isConnected s) (isConnecting s) (error s) (lastMessage s) c
    (ws s) (reconnectTimeoutRef s) (reconnectCountRef s) (isMountedRef s)
    (sockets s) (timers s) (nextTimer s) (calls s).

Definition set_ws (w : option nat) (s : Hook) : Hook :=
  mkHook (isConnected s) (isConnecting s) (error s) (lastMessage s)
    (connectionStatus s) w (reconnectTimeoutRef s) (reconnectCountRef s)
    (isMountedRef s) (sockets s) (timers s) (nextTimer s) (calls s).

Definition set_reconnectTimeoutRef (t : option nat) (s : Hook) : Hook :=
  mkHook (isConnected s) (isConnecting s) (error s) (lastMessage s)
    (connectionStatus s) (ws s) t (reconnectCountRef s)
    (isMountedRef s) (sockets s) (timers s) (nextTimer s) (calls s).

Definition set_reconnectCountRef (n : Z) (s : Hook) : Hook :=
  mkHook (isConnected s) (isConnecting s) (error s) (lastMessage s)
    (connectionStatus s) (ws s) (reconnectTimeoutRef s) n
    (isMountedRef s) (sockets s) (timers s) (nextTimer s) (calls s).

Definition set_isMountedRef (b : bool) (s : Hook) : Hook :=
  mkHook (isConnected s) (isConnecting s) (error s) (lastMessage s)
    (connectionStatus s) (ws s) (reconnectTimeoutRef s) (reconnectCountRef s)
    b (sockets s) (timers s) (nextTimer s) (calls s).

Definition set_sockets (l : list Socket) (s : Hook) : Hook :=
  mkHook (isConnected s) (isConnecting s) (error s) (lastMessage s)
    (connectionStatus s) (ws s) (reconnectTimeoutRef s) (reconnectCountRef s)
    (isMountedRef s) l (timers s) (nextTimer s) (calls s).

Definition set_timers (T : gset nat) (n : nat) (s : Hook) : Hook :=
  mkHook (isConnected s) (isConnecting s) (error s) (lastMessage s)
    (connectionStatus s) (ws s) (reconnectTimeoutRef s) (reconnectCountRef s)
    (isMountedRef s) (sockets s) T n (calls s).

(** Invoking a consumer callback ([onOpen?.(event)] and the like). *)
Definition fire (c : Callback) (s : Hook) : Hook :=
  mkHook (isConnected s) (isConnecting s) (error s) (lastMessage s)
    (connectionStatus s) (ws s) (reconnectTimeoutRef s) (reconnectCountRef s)
    (isMountedRef s) (sockets s) (timers s) (nextTimer s) (calls s ++ [c]).

(** ** The platform *)

Definition set_readyState (r : ReadyState) (k : Socket) : Socket :=
  mkSocket (sock_url k) r (sent k) (closing k).

(** The socket [ws.current] points to, with its index. *)
Definition current (s : Hook) : option (nat * Socket) :=
  i ← ws s; k ← sockets s !! i; Some (i, k).

(** [ws.current?.readyState]; [None] is [undefined]. *)
Definition current_readyState (s : Hook) : option ReadyState :=
  readyState ∘ snd <$> current s.

Definition is_CONNECTING (r : option ReadyState) : bool :=
  match r with Some CONNECTING => true | _ => false end.

Definition is_OPEN (r : option ReadyState) : bool :=
  match r with Some OPEN => true | _ => false end.

(** [new WebSocket(url)]: a fresh object in state [CONNECTING]. *)
Definition WebSocket_new (u : JsString) (s : Hook) : nat * Hook :=
  (length (sockets s),
   set_sockets (sockets s ++ [mkSocket u CONNECTING [] None]) s).

(** [socket.close(code, reason)]: nothing if the socket is already closing
    or closed; otherwise the closing starts and the state is [CLOSING]. *)
Definition WebSocket_close (i : nat) (code : option Z) (reason : option JsString)
  (s : Hook) : Hook :=
  match sockets s !! i with
  | Some k =>
      match readyState k with
      | CLOSING | CLOSED => s
      | CONNECTING | OPEN =>
          set_sockets
            (<[i := mkSocket (sock_url k) CLOSING (sent k) (Some (code, reason))]>
               (sockets s)) s
      end
  | None => s
  end.

(** [socket.send(text)]: [InvalidStateError] while [CONNECTING], the text
    goes out while [OPEN], and is discarded while [CLOSING] or [CLOSED].
    [write_throws] lets a transport fail the write for a reason of its own.
    [None] is a thrown exception. *)
Definition WebSocket_send (write_throws : bool) (i : nat) (text : JsString)
  (s : Hook) : option Hook :=
  if write_throws then None
  else
    match sockets s !! i with
    | Some k =>
        match readyState k with
        | CONNECTING => None
        | OPEN =>
            Some (set_sockets
                    (<[i := mkSocket (sock_url k) OPEN (sent k ++ [text]) (closing k)]>
                       (sockets s)) s)
        | CLOSING | CLOSED => Some s
        end
    | None => None
    end.

(** [setTimeout(callback, delay)]: a fresh pending timer.  Time is not
    modelled: a pending timer fires at some later moment, whatever
    [reconnectInterval] is. *)
Definition setTimeout (s : Hook) : nat * Hook :=
  (nextTimer s, set_timers ({[nextTimer s]} ∪ timers s) (S (nextTimer s)) s).

Definition clearTimeout (t : nat) (s : Hook) : Hook :=
  set_timers (timers s ∖ {[t]}) (nextTimer s) s.

(** ** The hook's functions *)

(** [!url]: [null] and the empty string are falsy. *)
Definition url_falsy (u : option JsString) : bool :=
  match u with
  | None | Some [] => true
  | Some _ => false
  end.

(** [connect] (lines 55-157).  The handlers it installs on the new socket
    are [onopen], [onmessage], [onerror] and [onclose] below. *)
Definition connect (env : Env) (s : Hook) : Hook :=
  if url_falsy (url env)
     || is_CONNECTING (current_readyState s)
     || is_OPEN (current_readyState s)
  then s
  else
    let s := setIsConnecting true s in
    let s := setConnectionStatus Connecting s in
    let s := setError None s in
    if WebSocket_accepts env then
      let '(i, s) := WebSocket_new (default [] (url env)) s in
      set_ws (Some i) s
    else
      (* catch (error) *)
      if negb (isMountedRef s) then s
      else
        let s := setError (Some "Failed to create WebSocket connection"%string) s in
        let s := setConnectionStatus Error s in
        setIsConnecting false s.

(** [ws.current.onopen] (lines 67-78), on socket [i]. *)
Definition onopen (i : nat) (s : Hook) : Hook :=
  if negb (isMountedRef s) then s
  else
    let s := setIsConnected true s in
    let s := setIsConnecting false s in
    let s := setConnectionStatus Connected s in
    let s := setError None s in
    let s := set_reconnectCountRef 0 s in
    fire (CbOpen i) s.

(** Lines 84-100: the message built from a frame, [None] when building it
    throws.  [now] is [new Date().toISOString()]. *)
Definition build_message (raw now : JsString) : option WebSocketMessage :=
  let messageData :=
    match JSON_parse raw with
    | Some v => v
    | None =>
        (* If not JSON, create a simple message structure *)
        JObject [(js "type", JString (js "message"));
                 (js "data", JString raw);
                 (js "timestamp", JString now)]
    end in
  ty ← get_property messageData (js "type");
  da ← get_property messageData (js "data");
  ts ← get_property messageData (js "timestamp");
  Some {| type := js_or ty (JString (js "message"));
          data := js_or da messageData;
          timestamp := js_or ts (JString now) |}.

(** [ws.current.onmessage] (lines 80-107), on socket [i]. *)
Definition onmessage (i : nat) (raw now : JsString) (s : Hook) : Hook :=
  if negb (isMountedRef s) then s
  else
    match build_message raw now with
    | Some message =>
        let s := setLastMessage (Some message) s in
        fire (CbMessage i message) s
    | None => s (* console.error('Error processing WebSocket message:') *)
    end.

(** [ws.current.onerror] (lines 109-119), on socket [i]. *)
Definition onerror (i : nat) (s : Hook) : Hook :=
  if negb (isMountedRef s) then s
  else
    let s := setError (Some "WebSocket connection error"%string) s in
    let s := setConnectionStatus Error s in
    let s := setIsConnecting false s in
    fire (CbError i) s.

(** [ws.current.onclose] (lines 121-148), on socket [i]. *)
Definition onclose (env : Env) (i : nat) (wasClean : bool) (code : Z)
  (reason : JsString) (s : Hook) : Hook :=
  if negb (isMountedRef s) then s
  else
    let s := setIsConnected false s in
    let s := setIsConnecting false s in
    let s :=
      if wasClean then setConnectionStatus Disconnected s
      else
        let s := setConnectionStatus Error s in
        setError (Some "Connection lost unexpectedly"%string) s in
    let s := fire (CbClose i wasClean code reason) s in
    (* Attempt to reconnect if not a clean close and we haven't exceeded
       max attempts *)
    if negb wasClean && (reconnectCountRef s <? reconnectAttempts env)%Z then
      let s := set_reconnectCountRef (reconnectCountRef s + 1) s in
      let '(t, s) := setTimeout s in
      set_reconnectTimeoutRef (Some t) s
    else s.

(** The callback given to [setTimeout] (lines 142-146). *)
Definition retry (env : Env) (s : Hook) : Hook :=
  if isMountedRef s then connect env s else s.

(** [disconnect] (lines 159-175). *)
Definition disconnect (s : Hook) : Hook :=
  let s :=
    match reconnectTimeoutRef s with
    | Some t =>
        let s := clearTimeout t s in
        set_reconnectTimeoutRef None s
    | None => s
    end in
  let s :=
    match ws s with
    | Some i =>
        let s := WebSocket_close i (Some 1000%Z) (Some (js "Intentional disconnect")) s in
        set_ws None s
    | None => s
    end in
  let s := setIsConnected false s in
  let s := setIsConnecting false s in
  let s := setConnectionStatus Disconnected s in
  let s := setError None s in
  set_reconnectCountRef 0 s.

(** Line 180: [typeof message === 'string' ? message : JSON.stringify(message)];
    [None] when [JSON.stringify] throws.  An [undefined] result reaches
    [send()] as the text [undefined]. *)
Definition messageString (env : Env) (message : JsAny) : option JsString :=
  match message with
  | AString t => Some t
  | AOther v =>
      match JSON_stringify env v with
      | Text t => Some t
      | Undefined => Some (js "undefined")
      | Throws => None
      end
  end.

(** [sendMessage] (lines 177-190). *)
Definition sendMessage (env : Env) (write_throws : bool) (message : JsAny)
  (s : Hook) : Hook :=
  match current s with
  | Some (i, k) =>
      match readyState k with
      | OPEN =>
          match t ← messageString env message; WebSocket_send write_throws i t s with
          | Some s' => s'
          | None => setError (Some "Failed to send message"%string) s
          end
      | _ => setError (Some "Cannot send message: not connected"%string) s
      end
  | None => setError (Some "Cannot send message: not connected"%string) s
  end.

(** React discards the state updates requested while a component is
    being torn down: the five state cells keep the values of the last
    render, whatever the cleanups passed to the setters.  Refs, sockets
    and timers are not React state and keep what the cleanups did. *)
Definition discard_updates (before after : Hook) : Hook :=
  mkHook (isConnected before) (isConnecting before) (error before)
    (lastMessage before) (connectionStatus before)
    (ws after) (reconnectTimeoutRef after) (reconnectCountRef after)
    (isMountedRef after) (sockets after) (timers after) (nextTimer after)
    (calls after).

(** Teardown of the owning component: the cleanup of the auto-connect
    effect (lines 198-201), then the cleanup of the unmount effect
    (lines 206-214); the [setIsConnected(false)] and the other state
    updates of the [disconnect()] in the first cleanup are discarded. *)
Definition unmount (s : Hook) : Hook :=
  let before := s in
  let s := set_isMountedRef false s in
  let s := disconnect s in
  let s := set_isMountedRef false s in
  let s :=
    match reconnectTimeoutRef s with
    | Some t => clearTimeout t s
    | None => s
    end in
  let s :=
    match ws s with
    | Some i => WebSocket_close i None None s
    | None => s
    end in
  discard_updates before s.

(** ** Runs of the hook *)

(** What can happen to a mounted hook: the consumer calls one of the three
    functions, a socket dispatches an event or starts closing, a timer
    fires, or the owning component goes away. *)
Inductive Event : Type :=
| Call_connect
| Call_disconnect
| Call_sendMessage (message : JsAny) (write_throws : bool)
| Ev_open (i : nat)
| Ev_message (i : nat) (raw now : JsString)
| Ev_error (i : nat)
| Ev_closing (i : nat)
| Ev_close (i : nat) (wasClean : bool) (code : Z) (reason : JsString)
| Ev_timer (t : nat)
| Ev_unmount.

Definition socket_state (s : Hook) (i : nat) : option ReadyState :=
  readyState <$> sockets s !! i.

(** What the platform allows: [open] is dispatched by a connecting socket,
    [message] by an open one, [error] and [close] by one that has not
    closed yet, and only a pending timer fires.  When the server starts
    the closing handshake, an open socket goes to [CLOSING] without any
    event being dispatched ([Ev_closing]); its [close] event follows
    later.  The consumer may call the three functions at any time, also
    through a reference kept after the component went away; the state
    cells then record what such a call passed to the setters, although
    no component is left to render them.

    A browser fires [error] just before the [close] of a failed
    connection; here [error] may come alone, as the test suite's mock
    socket does it, which only adds runs.  Consumer callbacks are taken
    to return normally and not to call back into the hook. *)
Definition enabled (s : Hook) (e : Event) : bool :=
  match e with
  | Call_connect | Call_disconnect | Call_sendMessage _ _ => true
  | Ev_open i => is_CONNECTING (socket_state s i)
  | Ev_message i _ _ | Ev_closing i => is_OPEN (socket_state s i)
  | Ev_error i | Ev_close i _ _ _ =>
      match socket_state s i with
      | Some CONNECTING | Some OPEN | Some CLOSING => true
      | _ => false
      end
  | Ev_timer t => bool_decide (t ∈ timers s)
  | Ev_unmount => isMountedRef s
  end.

(** The platform part of an event on socket [i]: its new ready state. *)
Definition socket_becomes (r : ReadyState) (i : nat) (s : Hook) : Hook :=
  match sockets s !! i with
  | Some k => set_sockets (<[i := set_readyState r k]> (sockets s)) s
  | None => s
  end.

Definition step (env : Env) (s : Hook) (e : Event) : Hook :=
  match e with
  | Call_connect => connect env s
  | Call_disconnect => disconnect s
  | Call_sendMessage m w => sendMessage env w m s
  | Ev_open i => onopen i (socket_becomes OPEN i s)
  | Ev_message i raw now => onmessage i raw now s
  | Ev_error i => onerror i s
  | Ev_closing i => socket_becomes CLOSING i s
  | Ev_close i wasClean code reason =>
      onclose env i wasClean code reason (socket_becomes CLOSED i s)
  | Ev_timer t => retry env (clearTimeout t s)
  | Ev_unmount => unmount s
  end.

Fixpoint run (env : Env) (s : Hook) (es : list Event) : Hook :=
  match es with
  | [] => s
  | e :: rest => run env (step env s e) rest
  end.

(** Every event of the run is one the platform allows when it happens. *)
Fixpoint feasible (env : Env) (s : Hook) (es : list Event) : bool :=
  match es with
  | [] => true
  | e :: rest => enabled s e && feasible env (step env s e) rest
  end.

(** The states a hook can be in. *)
Inductive reachable (env : Env) : Hook -> Prop :=
| reach_initial : reachable env initial
| reach_step s e :
    reachable env s -> enabled s e = true -> reachable env (step env s e).

(** Transports that are open or opening. *)
Definition live (r : ReadyState) : bool :=
  match r with
  | CONNECTING | OPEN => true
  | CLOSING | CLOSED => false
  end.

Definition open_transports (s : Hook) : nat :=
  length (filter (fun k => live (readyState k) = true) (sockets s)).

(** An environment for the closed examples: the target of the log viewer,
    and three non-string values: 0 is the object [{type: 'ping'}], 1 is
    [undefined], and the others are values [JSON.stringify] rejects. *)
Definition sample_env (attempts : Z) : Env :=
  {| url := Some (js "ws://host/logs/abc123");
     reconnectAttempts := attempts;
     reconnectInterval := 3000;
     WebSocket_accepts := true;
     JSON_stringify := fun v =>
       match v with
       | O => Text (jsq "{'type':'ping'}")
       | S O => Undefined
       | _ => Throws
       end |}.

(** ** Notions the properties are stated with *)

(** What every reachable state satisfies: a socket that is open or opening
    is the one [ws.current] holds; on a mounted hook the status
    [Connected] means that socket is open, or closing because the server
    has started the closing handshake; no retry has been counted since
    the status became [Connected]; after teardown a status [Connected]
    left over from the last render comes with no socket held; and a
    mounted hook in status [Connecting] holds no open socket. *)
Record consistent (s : Hook) : Prop := mkConsistent {
  only_current_live :
    forall i r, socket_state s i = Some r -> live r = true -> ws s = Some i;
  connected_not_closed :
    isMountedRef s = true -> connectionStatus s = Connected ->
    current_readyState s = Some OPEN \/ current_readyState s = Some CLOSING;
  connected_counter_zero :
    connectionStatus s = Connected -> reconnectCountRef s = 0%Z;
  unmounted_connected_idle :
    isMountedRef s = false -> connectionStatus s = Connected -> ws s = None;
  connecting_not_open :
    isMountedRef s = true -> connectionStatus s = Connecting ->
    is_OPEN (current_readyState s) = false
}.

(** The state after socket [i], which was [k], has sent the text [t]. *)
Definition transmit (i : nat) (k : Socket) (t : JsString) (s : Hook) : Hook :=
  set_sockets
    (<[i := mkSocket (sock_url k) OPEN (sent k ++ [t]) (closing k)]> (sockets s)) s.

(** The socket an event comes from. *)
Definition event_source (e : Event) : option nat :=
  match e with
  | Ev_open i | Ev_message i _ _ | Ev_error i | Ev_closing i
  | Ev_close i _ _ _ => Some i
  | _ => None
  end.

(** Events the platform dispatches, as opposed to calls of the consumer. *)
Definition from_platform (e : Event) : bool :=
  match e with
  | Ev_open _ | Ev_message _ _ _ | Ev_error _ | Ev_closing _
  | Ev_close _ _ _ _ | Ev_timer _ => true
  | _ => false
  end.

(** Everything of the state that belongs to the hook and its consumer:
    the state cells, the refs and the callbacks fired so far. *)
Definition hook_view (s : Hook) :=
  (isConnected s, isConnecting s, error s, lastMessage s, connectionStatus s,
   (ws s, reconnectTimeoutRef s, reconnectCountRef s, isMountedRef s), calls s).

(** *** Statements that the hook does not satisfy *)

(** A frame that parses as an object with the three fields is delivered
    with exactly these three values. *)
Definition verbatim_claim : Prop :=
  forall raw now fields t d ts,
    JSON_parse raw = Some (JObject fields) ->
    own_property (js "type") fields = Some t ->
    own_property (js "data") fields = Some d ->
    own_property (js "timestamp") fields = Some ts ->
    build_message raw now = Some {| type := t; data := d; timestamp := ts |}.

(** In any status but [Connected], [sendMessage] reports the not-connected
    failure and writes nothing. *)
Definition not_connected_claim (env : Env) : Prop :=
  forall s w m,
    reachable env s -> connectionStatus s <> Connected ->
    error (sendMessage env w m s) = Some "Cannot send message: not connected"%string
    /\ sockets (sendMessage env w m s) = sockets s.

(** After [disconnect], no event of the socket it let go of reaches the
    consumer. *)
Definition suppression_claim (env : Env) : Prop :=
  forall s i e,
    reachable env s -> ws s = Some i -> event_source e = Some i ->
    enabled (disconnect s) e = true ->
    calls (step env (disconnect s) e) = calls (disconnect s).

(** In status [Connected], [sendMessage] writes a string as it is and any
    other value as a JSON text. *)
Definition connected_send_claim (env : Env) : Prop :=
  forall s,
    reachable env s -> isMountedRef s = true -> connectionStatus s = Connected ->
    exists i k,
      ws s = Some i /\ sockets s !! i = Some k
      /\ (forall t,
            sent <$> sockets (sendMessage env false (AString t) s) !! i
            = Some (sent k ++ [t]))
      /\ (forall v, JSON_stringify env v <> Throws ->
            exists t,
              sent <$> sockets (sendMessage env false (AOther v) s) !! i
              = Some (sent k ++ [t])
              /\ JSON_parse t <> None).

(** An abnormal close in status [Connected] with the retry budget used up
    leads to [Disconnected]. *)
Definition exhausted_close_claim (env : Env) : Prop :=
  forall s i code reason,
    reachable env s -> connectionStatus s = Connected ->
    enabled s (Ev_close i false code reason) = true ->
    (reconnectAttempts env <= reconnectCountRef s)%Z ->
    connectionStatus (step env s (Ev_close i false code reason)) = Disconnected.

(** *** Runs used in the closed examples *)

(** A second [connect] right after a [disconnect]: the close event of the
    first socket arrives when the second is already open. *)
Definition superseded_close : list Event :=
  [Call_connect; Call_disconnect; Call_connect; Ev_open 1;
   Ev_close 0 true 1000 (js "Intentional disconnect")].

(** The connection drops, the consumer calls [connect] while the retry
    timer is pending, and the new connection drops as well. *)
Definition drop_connect_drop : list Event :=
  [Call_connect; Ev_open 0; Ev_close 0 false 1006 []; Call_connect;
   Ev_close 1 false 1006 []].

(** One retry is allowed: the connection drops, the retry fires, and the
    new connection fails as well. *)
Definition retries_used_up : list Event :=
  [Call_connect; Ev_open 0; Ev_close 0 false 1006 []; Ev_timer 1;
   Ev_close 1 false 1006 []].

(** The server starts the closing handshake of an open connection; the
    close event has not been dispatched yet. *)
Definition server_closing : list Event :=
  [Call_connect; Ev_open 0; Ev_closing 0].

(** A connection that was open when its component went away. *)
Definition torn_down : Hook :=
  unmount (run (sample_env 3) initial [Call_connect; Ev_open 0]).

(** ** The effects of the hook and the code around it *)

(** *** The auto-connect effect ([useWebSocket.ts], lines 193-202) *)

(** The body of the effect: [if (autoConnect && url) connect()]. *)
Definition autoConnect_effect (env : Env) (autoConnect : bool) (s : Hook) : Hook :=
  if autoConnect && negb (url_falsy (url env)) then connect env s else s.

(** Its cleanup: [isMountedRef.current = false; disconnect()]. *)
Definition autoConnect_cleanup (s : Hook) : Hook :=
  disconnect (set_isMountedRef false s).

(** When one of its dependencies ([url], [autoConnect], [connect]) has
    changed, React runs the cleanup of the effect and then its body with
    the new values. *)
Definition effect_rerun (env : Env) (autoConnect : bool) (s : Hook) : Hook :=
  autoConnect_effect env autoConnect (autoConnect_cleanup s).

(** The consumer callback an event fires on a mounted hook, if any. *)
Definition callback_of (e : Event) : option Callback :=
  match e with
  | Ev_open i => Some (CbOpen i)
  | Ev_message i raw now => CbMessage i <$> build_message raw now
  | Ev_error i => Some (CbError i)
  | Ev_close i wasClean code reason => Some (CbClose i wasClean code reason)
  | _ => None
  end.

(** The message an event delivers on a mounted hook, if any. *)
Definition message_of (e : Event) : option WebSocketMessage :=
  match e with
  | Ev_message _ raw now => build_message raw now
  | _ => None
  end.

Definition is_unmount (e : Event) : bool :=
  match e with Ev_unmount => true | _ => false end.

(** How the flags and the error text the hook returns hang together. *)
Record flags_consistent (s : Hook) : Prop := mkFlags {
  connecting_flag : isConnecting s = true <-> connectionStatus s = Connecting;
  connected_flag : connectionStatus s = Connected -> isConnected s = true;
  connected_flag_socket :
    isMountedRef s = true -> isConnected s = true ->
    exists j r, socket_state s j = Some r /\ (r = OPEN \/ r = CLOSING);
  error_flag : connectionStatus s = Error -> error s <> None
}.

(** *** Strings *)

(** [s.startsWith(p)]. *)
Fixpoint starts_with (p s : JsString) : bool :=
  match p, s with
  | [], _ => true
  | _ :: _, [] => false
  | a :: p', b :: s' => (a =? b)%N && starts_with p' s'
  end.

(** [s.replace(pat, rep)] for a string [pat] and a [rep] without dollar
    sign: the first occurrence of [pat] is replaced. *)
Fixpoint String_replace (pat rep s : JsString) : JsString :=
  if starts_with pat s then rep ++ drop (length pat) s
  else
    match s with
    | [] => []
    | c :: s' => c :: String_replace pat rep s'
    end.

(** *** The container page ([ContainerManagement], src/unnamed/part_003) *)

(** Line 43: [import.meta.env.VITE_API_URL || 'http://localhost:8000']. *)
Definition API_BASE_URL (VITE_API_URL : option JsString) : JsString :=
  match VITE_API_URL with
  | Some (c :: u) => c :: u
  | _ => js "http://localhost:8000"
  end.

(** Lines 44-46: the address of the log stream of the selected container,
    given by its id; [null] when none is selected. *)
Definition wsUrl (VITE_API_URL : option JsString) (selectedContainer : option JsString)
  : option JsString :=
  match selectedContainer with
  | Some id =>
      Some (String_replace (js "http") (js "ws") (API_BASE_URL VITE_API_URL)
            ++ js "/api/ws/logs/" ++ id)
  | None => None
  end.

(** [v === 'log']. *)
Definition is_log (v : JsValue) : bool :=
  match v with
  | JString t => JsString_eqb t (js "log")
  | _ => false
  end.

(** Lines 55-59, the [onMessage] given to the hook:
    [if (message.type === 'log' && message.data.message)] the text
    [message.data.message] is appended to [containerLogs].  [None] is a
    [TypeError], from reading a property of [null].  Like the keys the
    hook reads, [message] is no property of arrays, strings, numbers or
    booleans. *)
Definition container_onMessage (message : WebSocketMessage)
  (containerLogs : list JsValue) : option (list JsValue) :=
  if is_log (type message) then
    line ← get_property (data message) (js "message");
    Some (if absent_or_falsy line then containerLogs
          else containerLogs ++ [default JNull line])
  else Some containerLogs.

(** *** The log viewer ([LogViewer.tsx]) *)

(** Lines 108-119, the [onmessage] of the viewer's own socket: a frame
    that is JSON adds its [message] if its [type] is [log] and the
    [message] is truthy; a frame on which [JSON.parse] or the read of
    [data.type] throws is added as it is. *)
Definition viewer_onmessage (raw : JsString) (filteredLogs : list JsValue)
  : list JsValue :=
  match data ← JSON_parse raw;
        ty ← get_property data (js "type");
        if is_log (default JNull ty) then
          line ← get_property data (js "message");
          Some (if absent_or_falsy line then filteredLogs
                else filteredLogs ++ [default JNull line])
        else Some filteredLogs
  with
  | Some logs => logs
  | None => filteredLogs ++ [JString raw] (* catch: treat as plain log message *)
  end.

(** The regular expressions of [parseLogEntry] carry the flag [i]; their
    letters are ASCII, so a code unit matches a letter of the pattern
    exactly when the two agree up to ASCII case. *)
Definition lower_ascii (c : N) : N :=
  if ((65 <=? c) && (c <=? 90))%N then (c + 32)%N else c.

Fixpoint starts_with_ci (p s : JsString) : bool :=
  match p, s with
  | [], _ => true
  | _ :: _, [] => false
  | a :: p', b :: s' => (lower_ascii a =? lower_ascii b)%N && starts_with_ci p' s'
  end.

(** The alternation [(error|warn|info|debug)], in its order. *)
Definition level_words : list JsString :=
  [js "error"; js "warn"; js "info"; js "debug"].

(** A match of [pre(error|warn|info|debug)post] at the start of [s]: the
    alternative matched, which is also the captured text in lower case. *)
Definition level_at (pre post s : JsString) : option JsString :=
  snd <$> list_find (fun w => starts_with_ci (pre ++ w ++ post) s = true) level_words.

(** [s.match(re)] without the flag [g]: the match that starts leftmost. *)
Fixpoint first_match {A} (at_start : JsString -> option A) (s : JsString)
  : option A :=
  match at_start s with
  | Some a => Some a
  | None =>
      match s with
      | [] => None
      | _ :: s' => first_match at_start s'
      end
  end.

(** Lines 72-82 of [parseLogEntry]: the level of a log line, [info] unless
    one of the three patterns matches. *)
Definition parse_level (log : JsString) : JsString :=
  match first_match (level_at [91%N] [93%N]) log with
  | Some w => w
  | None =>
      match first_match (level_at [] [58%N]) log with
      | Some w => w
      | None =>
          match first_match (level_at (js "level=") []) log with
          | Some w => w
          | None => js "info"
          end
      end
  end.

(** Lines 169-181, [getLogLevelStyle]. *)
Definition getLogLevelStyle (log : JsString) : string :=
  let level := parse_level log in
  if JsString_eqb level (js "error") then "text-red-400"
  else if JsString_eqb level (js "warn") then "text-yellow-400"
  else if JsString_eqb level (js "debug") then "text-blue-400"
  else "text-gray-100".

(** Lines 150-156, the level filter of the viewer. *)
Definition filter_by_level (levelFilter : JsString) (logs : list JsString)
  : list JsString :=
  if JsString_eqb levelFilter (js "all") then logs
  else filter (fun log => parse_level log = levelFilter) logs.

(** *** Notions for the properties of the effects *)


(** Every socket of [l] is still in [l'], with the same target and the same
    texts sent. *)
Definition same_traffic (l l' : list Socket) : Prop :=
  forall i k, l !! i = Some k ->
    exists k', l' !! i = Some k' /\ sock_url k' = sock_url k /\ sent k' = sent k.

(** * Properties *)

(** ** [JSON.parse] on sample texts *)

Example parse_empty : JSON_parse [] = None.
Proof. reflexivity. Qed.

Example parse_plain_text : JSON_parse (js "line1") = None.
Proof. reflexivity. Qed.

Example parse_blank : JSON_parse (js "  ") = None.
Proof. reflexivity. Qed.

Example parse_null : JSON_parse (js " null ") = Some JNull.
Proof. reflexivity. Qed.

Example parse_log_frame :
  JSON_parse (jsq "{'type':'log','data':'line2'}")
  = Some (JObject [(js "type", JString (js "log"));
                   (js "data", JString (js "line2"))]).
Proof. reflexivity. Qed.

Example parse_number :
  JSON_parse (js "-12.50e+3") = Some (JNumber (mkNumber true 1250 1)).
Proof. reflexivity. Qed.

Example parse_leading_zero : JSON_parse (js "01") = None.
Proof. reflexivity. Qed.

Example parse_nested :
  JSON_parse (jsq "{'a':[1,{'b':null}], 'c' : [ ] }")
  = Some (JObject [(js "a", JArray [JNumber (mkNumber false 1 0);
                                    JObject [(js "b", JNull)]]);
                   (js "c", JArray [])]).
Proof. reflexivity. Qed.

Example parse_duplicate_key :
  JSON_parse (jsq "{'a':1,'b':2,'a':3}")
  = Some (JObject [(js "a", JNumber (mkNumber false 3 0));
                   (js "b", JNumber (mkNumber false 2 0))]).
Proof. reflexivity. Qed.

Example parse_escapes :
  JSON_parse (jsq "'a\u0041\n\u1234'") = Some (JString [97; 65; 10; 4660]%N).
Proof. reflexivity. Qed.

Example parse_trailing_comma : JSON_parse (jsq "[1,]") = None.
Proof. reflexivity. Qed.

Example parse_two_values : JSON_parse (js "1 2") = None.
Proof. reflexivity. Qed.

Example parse_unclosed : JSON_parse (jsq "{'a':1") = None.
Proof. reflexivity. Qed.

Example truthy_underflow : truthy (JNumber (mkNumber false 2 (-324))) = false.
Proof. vm_compute. reflexivity. Qed.

Example truthy_smallest : truthy (JNumber (mkNumber false 5 (-324))) = true.
Proof. vm_compute. reflexivity. Qed.

(** Unfolds the field updates and reads, and nothing else. *)
Ltac hook_unfold :=
  cbv [setIsConnected setIsConnecting setError setLastMessage
       setConnectionStatus set_ws set_reconnectTimeoutRef
       set_reconnectCountRef set_isMountedRef set_sockets set_timers fire
       clearTimeout
       isConnected isConnecting error lastMessage connectionStatus ws
       reconnectTimeoutRef reconnectCountRef isMountedRef sockets timers
       nextTimer calls].

(** ** Ready states under the platform operations *)

Lemma socket_state_insert (l : list Socket) (i j : nat) (k0 k1 : Socket) :
  l !! i = Some k0 ->
  readyState <$> (<[i := k1]> l) !! j
  = if bool_decide (i = j) then Some (readyState k1) else readyState <$> l !! j.
Proof.
  intros Hi. case_bool_decide as Hij.
  - subst j. rewrite list_lookup_insert_eq; [done|]. by eapply lookup_lt_Some.
  - by rewrite list_lookup_insert_ne.
Qed.

Lemma socket_state_becomes r i s j :
  socket_state (socket_becomes r i s) j
  = if bool_decide (i = j)
    then (fun _ => r) <$> socket_state s i
    else socket_state s j.
Proof.
  unfold socket_state, socket_becomes.
  destruct (sockets s !! i) as [k|] eqn:Hi; simpl.
  - by rewrite (socket_state_insert _ _ _ _ _ Hi).
  - case_bool_decide; [by subst; rewrite Hi | done].
Qed.

Lemma socket_state_close i code reason s j :
  socket_state (WebSocket_close i code reason s) j
  = if bool_decide (i = j)
    then (fun r => if live r then CLOSING else r) <$> socket_state s i
    else socket_state s j.
Proof.
  unfold socket_state, WebSocket_close.
  destruct (sockets s !! i) as [k|] eqn:Hi; simpl.
  - destruct (readyState k) eqn:Hr; simpl;
      try rewrite (socket_state_insert _ _ _ _ _ Hi); simpl;
      case_bool_decide; subst; rewrite ?Hi; simpl; rewrite ?Hr; done.
  - case_bool_decide; [by subst; rewrite Hi | done].
Qed.

Lemma socket_state_send w i t s s' j :
  WebSocket_send w i t s = Some s' ->
  socket_state s' j = socket_state s j.
Proof.
  unfold socket_state, WebSocket_send. destruct w; [done|].
  destruct (sockets s !! i) as [k|] eqn:Hi; [|done].
  destruct (readyState k) eqn:Hr; intros [= <-]; simpl; try done.
  rewrite (socket_state_insert _ _ _ _ _ Hi); simpl.
  case_bool_decide; [subst; by rewrite Hi, <- Hr | done].
Qed.

Lemma socket_state_new u s j :
  socket_state (snd (WebSocket_new u s)) j
  = if bool_decide (j = length (sockets s)) then Some CONNECTING
    else socket_state s j.
Proof.
  unfold socket_state, WebSocket_new; simpl.
  case_bool_decide as Hj.
  - subst j. by rewrite lookup_app_r, Nat.sub_diag by lia.
  - destruct (decide (j < length (sockets s))) as [Hlt|Hge].
    + by rewrite lookup_app_l.
    + rewrite !lookup_ge_None_2; [done|lia|].
      rewrite length_app; simpl; lia.
Qed.

Lemma current_readyState_eq s :
  current_readyState s = i ← ws s; socket_state s i.
Proof.
  unfold current_readyState, current, socket_state.
  destruct (ws s) as [i|]; simpl; [|done].
  by destruct (sockets s !! i).
Qed.

Lemma current_readyState_ext s s' :
  ws s = ws s' -> sockets s = sockets s' ->
  current_readyState s = current_readyState s'.
Proof. unfold current_readyState, current. by intros -> ->. Qed.

(** ** The invariant of reachable states *)

Lemma consistent_initial : consistent initial.
Proof. split; done. Qed.

(** When the guard of [connect] lets it through, no socket at all is open
    or opening. *)
Lemma no_live_when_current_idle s :
  consistent s ->
  is_CONNECTING (current_readyState s) || is_OPEN (current_readyState s) = false ->
  forall i r, socket_state s i = Some r -> live r = false.
Proof.
  intros Hc Hg i r Hi. destruct (live r) eqn:Hl; [|done].
  pose proof (only_current_live s Hc i r Hi Hl) as Hw.
  rewrite current_readyState_eq, Hw in Hg; simpl in Hg. rewrite Hi in Hg.
  by destruct r.
Qed.

Lemma consistent_connect env s : consistent s -> consistent (connect env s).
Proof.
  intros Hc. unfold connect.
  destruct (url_falsy (url env)); [done|]; simpl.
  destruct (_ || _) eqn:Hg; [done|].
  pose proof (no_live_when_current_idle s Hc Hg) as Hidle.
  destruct (WebSocket_accepts env).
  - pose proof (socket_state_new (default [] (url env))
        (setError None (setConnectionStatus Connecting (setIsConnecting true s))))
      as E.
    unfold socket_state in E, Hidle; simpl in E.
    split; simpl; try done.
    + intros i r. unfold socket_state; simpl. rewrite E.
      case_bool_decide; [by subst|].
      intros Hi Hl. by rewrite (Hidle i r Hi) in Hl.
    + intros _ _. rewrite current_readyState_eq; simpl.
      unfold socket_state; simpl. rewrite E.
      by rewrite bool_decide_eq_true_2.
  - destruct (isMountedRef s) eqn:Hm; simpl;
      (split; simpl; try done; try (by rewrite Hm));
      intros i r Hi Hl; unfold socket_state in *; simpl in *;
      by rewrite (Hidle i r Hi) in Hl.
Qed.

(** [disconnect] needs only the first clause: it leaves no socket open or
    opening and the status [Disconnected]. *)
Lemma consistent_disconnect s :
  (forall i r, socket_state s i = Some r -> live r = true -> ws s = Some i) ->
  consistent (disconnect s).
Proof.
  intros Hc. unfold disconnect.
  set (s1 := match reconnectTimeoutRef s with
             | Some t => set_reconnectTimeoutRef None (clearTimeout t s)
             | None => s end).
  assert (Hs1 : sockets s1 = sockets s /\ ws s1 = ws s)
    by (subst s1; by destruct (reconnectTimeoutRef s)).
  destruct Hs1 as [Hsock Hws]. rewrite Hws.
  split; simpl; try done.
  intros i r Hi Hl. exfalso.
  destruct (ws s) as [c|] eqn:Hc0; simpl in *.
  - change (socket_state (WebSocket_close c (Some 1000%Z)
              (Some (js "Intentional disconnect")) s1) i = Some r) in Hi.
    rewrite socket_state_close in Hi.
    unfold socket_state in Hi. rewrite Hsock in Hi.
    case_bool_decide as Hci.
    + destruct (sockets s !! c) as [k|]; simpl in Hi; [|done].
      injection Hi as <-. by destruct (readyState k).
    + apply Hci. pose proof (Hc i r Hi Hl). congruence.
  - unfold socket_state in Hi; simpl in Hi. rewrite Hsock in Hi.
    pose proof (Hc i r Hi Hl). congruence.
Qed.

Lemma consistent_sendMessage env w m s :
  consistent s -> consistent (sendMessage env w m s).
Proof.
  intros Hc. unfold sendMessage.
  destruct (current s) as [[i k]|]; [|by destruct Hc].
  destruct (readyState k); try by destruct Hc.
  destruct (messageString env m) as [t|]; simpl; [|by destruct Hc].
  destruct (WebSocket_send w i t s) as [s'|] eqn:Hs; [|by destruct Hc].
  pose proof (fun j => socket_state_send _ _ _ _ _ j Hs) as Hst.
  assert (Hv : ws s' = ws s /\ connectionStatus s' = connectionStatus s
               /\ isMountedRef s' = isMountedRef s
               /\ reconnectCountRef s' = reconnectCountRef s).
  { unfold WebSocket_send in Hs. destruct w; [done|].
    destruct (sockets s !! i) as [k'|]; [|done].
    destruct (readyState k'); by simplify_eq. }
  destruct Hv as (Hw & Hst' & Hm & Hn).
  assert (Hcur : current_readyState s' = current_readyState s).
  { rewrite !current_readyState_eq, Hw. destruct (ws s); simpl; [apply Hst|done]. }
  destruct Hc as [H1 H2 H5 H3 H4].
  split; rewrite ?Hw, ?Hst', ?Hm, ?Hcur, ?Hn; try done.
  intros j r. rewrite Hst. apply H1.
Qed.

Lemma consistent_onmessage i raw now s :
  consistent s -> consistent (onmessage i raw now s).
Proof.
  intros Hc. unfold onmessage.
  destruct (isMountedRef s); simpl; [|done].
  destruct (build_message raw now); by destruct Hc.
Qed.

Lemma consistent_onerror i s : consistent s -> consistent (onerror i s).
Proof.
  intros Hc. unfold onerror.
  destruct (isMountedRef s) eqn:Hm; simpl; [|done].
  destruct Hc as [H1 H2 H5 H3 H4]. split; simpl; done.
Qed.

Lemma socket_becomes_fields r i s :
  ws (socket_becomes r i s) = ws s
  /\ connectionStatus (socket_becomes r i s) = connectionStatus s
  /\ isMountedRef (socket_becomes r i s) = isMountedRef s
  /\ reconnectCountRef (socket_becomes r i s) = reconnectCountRef s.
Proof. unfold socket_becomes. by destruct (sockets s !! i). Qed.

(** An [open] event comes from a connecting socket, which is therefore the
    one the hook holds. *)
Lemma consistent_open i s :
  consistent s -> socket_state s i = Some CONNECTING ->
  consistent (onopen i (socket_becomes OPEN i s)).
Proof.
  intros [H1 H2 H5 H3 H4] Hi.
  pose proof (H1 i CONNECTING Hi eq_refl) as Hw.
  pose proof (socket_becomes_fields OPEN i s) as (Ew & Es & Em & En).
  pose proof (socket_state_becomes OPEN i s) as Eb.
  assert (Hcur : current_readyState (socket_becomes OPEN i s) = Some OPEN).
  { rewrite current_readyState_eq, Ew, Hw; simpl.
    rewrite Eb, bool_decide_eq_true_2, Hi; done. }
  assert (Hlive : forall j r, socket_state (socket_becomes OPEN i s) j = Some r ->
                              live r = true -> ws s = Some j).
  { intros j r. rewrite Eb. case_bool_decide; [by subst|apply H1]. }
  unfold onopen. rewrite Em.
  destruct (isMountedRef s) eqn:Hm; simpl.
  - split; simpl; try done.
    + intros j r Hj. rewrite Ew. by apply Hlive.
    + intros _ _. left.
      by rewrite (current_readyState_ext _ (socket_becomes OPEN i s)), Hcur.
    + by rewrite Em.
  - split; rewrite ?Ew, ?Es, ?Em, ?En; try done.
Qed.

(** When the server starts the closing handshake, the socket is open, and
    therefore the one the hook holds. *)
Lemma consistent_closing i s :
  consistent s -> socket_state s i = Some OPEN ->
  consistent (socket_becomes CLOSING i s).
Proof.
  intros [H1 H2 H5 H3 H4] Hi.
  pose proof (H1 i OPEN Hi eq_refl) as Hw.
  pose proof (socket_becomes_fields CLOSING i s) as (Ew & Es & Em & En).
  pose proof (socket_state_becomes CLOSING i s) as Eb.
  assert (Hcur : current_readyState (socket_becomes CLOSING i s) = Some CLOSING).
  { rewrite current_readyState_eq, Ew, Hw; simpl.
    rewrite Eb, bool_decide_eq_true_2, Hi; done. }
  split; rewrite ?Ew, ?Es, ?Em, ?En, ?Hcur; try done.
  - intros j r. rewrite Eb. case_bool_decide; [|apply H1].
    subst. rewrite Hi. simpl. by intros [= <-].
  - auto.
Qed.

Lemma consistent_close env i wasClean code reason s :
  consistent s ->
  consistent (onclose env i wasClean code reason (socket_becomes CLOSED i s)).
Proof.
  intros [H1 H2 H5 H3 H4].
  pose proof (socket_becomes_fields CLOSED i s) as (Ew & Es & Em & En).
  pose proof (socket_state_becomes CLOSED i s) as Eb.
  assert (Hlive : forall j r, socket_state (socket_becomes CLOSED i s) j = Some r ->
                              live r = true -> ws s = Some j).
  { intros j r. rewrite Eb. case_bool_decide; [|apply H1].
    subst. destruct (socket_state s j); simpl; [|done]. by intros [= <-]. }
  unfold onclose. rewrite Em.
  destruct (isMountedRef s) eqn:Hm; simpl.
  - destruct (_ && _); destruct wasClean; simpl;
      (split; simpl; try done).
    all: intros j r Hj Hl; rewrite Ew; exact (Hlive j r Hj Hl).
  - split; rewrite ?Ew, ?Es, ?Em, ?En; try done.
Qed.

Lemma consistent_timer env t s :
  consistent s -> consistent (retry env (clearTimeout t s)).
Proof.
  intros Hc. unfold retry.
  assert (Hc' : consistent (clearTimeout t s)) by by destruct Hc.
  simpl. destruct (isMountedRef s); [by apply consistent_connect | done].
Qed.

Lemma disconnect_refs s :
  ws (disconnect s) = None /\ reconnectTimeoutRef (disconnect s) = None
  /\ isMountedRef (disconnect s) = isMountedRef s.
Proof.
  unfold disconnect.
  set (s1 := match reconnectTimeoutRef s with
             | Some t => set_reconnectTimeoutRef None (clearTimeout t s)
             | None => s end).
  assert (H1 : reconnectTimeoutRef s1 = None /\ isMountedRef s1 = isMountedRef s).
  { subst s1. by destruct (reconnectTimeoutRef s) eqn:Ht. }
  destruct H1 as [Ht Hm]. simpl.
  destruct (ws s1) as [i|] eqn:Hw; simpl; rewrite ?Hw.
  - split; [done|]. unfold WebSocket_close.
    destruct (sockets s1 !! i) as [k|]; [destruct (readyState k)|]; done.
  - done.
Qed.

(** [disconnect] in one piece. *)
Lemma disconnect_unfold s :
  disconnect s
  = mkHook false false None (lastMessage s) Disconnected None None 0
      (isMountedRef s)
      (match ws s with
       | Some i =>
           sockets (WebSocket_close i (Some 1000%Z)
                      (Some (js "Intentional disconnect")) s)
       | None => sockets s
       end)
      (match reconnectTimeoutRef s with
       | Some t => timers s ∖ {[t]}
       | None => timers s
       end)
      (nextTimer s) (calls s).
Proof.
  unfold disconnect, WebSocket_close.
  destruct s as [c1 c2 e lm st w rt rc m so ti nt ca].
  hook_unfold.
  destruct rt as [t|], w as [i|]; hook_unfold; try reflexivity;
    (destruct (so !! i) as [k|]; [destruct (readyState k)|]); reflexivity.
Qed.

(** After the first cleanup has run [disconnect], the second finds both refs
    cleared and does nothing more; of the first, the refs, the sockets and
    the timers keep what [disconnect] did, and the state cells are those of
    the last render. *)
Lemma unmount_unfold s :
  unmount s
  = mkHook (isConnected s) (isConnecting s) (error s) (lastMessage s)
      (connectionStatus s) None None 0 false
      (sockets (disconnect s)) (timers (disconnect s)) (nextTimer s) (calls s).
Proof.
  unfold unmount; cbv zeta.
  destruct (disconnect_refs (set_isMountedRef false s)) as (Hw & Ht & _).
  set (d := disconnect (set_isMountedRef false s)) in *.
  change (reconnectTimeoutRef (set_isMountedRef false d))
    with (reconnectTimeoutRef d).
  rewrite Ht.
  change (ws (set_isMountedRef false d)) with (ws d).
  rewrite Hw. subst d. clear Hw Ht.
  rewrite (disconnect_unfold (set_isMountedRef false s)), (disconnect_unfold s).
  unfold discard_updates, WebSocket_close.
  destruct s as [c1 c2 e lm st w rt rc m so ti nt ca]. hook_unfold.
  destruct w as [i|]; [|reflexivity].
  destruct (so !! i) as [k|]; [destruct (readyState k)|]; reflexivity.
Qed.

Lemma step_unmount env s : step env s Ev_unmount = unmount s.
Proof. reflexivity. Qed.

Lemma consistent_unmount s : consistent s -> consistent (unmount s).
Proof.
  intros Hc. rewrite unmount_unfold.
  assert (Hd : consistent (disconnect s)).
  { apply consistent_disconnect. destruct Hc as [H1 _ _ _ _]. apply H1. }
  destruct Hd as [H1 _ _ _ _].
  destruct (disconnect_refs s) as (Hw & _).
  split; cbn [isMountedRef connectionStatus ws reconnectCountRef]; try done.
  intros i r Hi Hl. unfold socket_state in Hi. cbn [sockets] in Hi.
  specialize (H1 i r Hi Hl). by rewrite Hw in H1.
Qed.

Lemma consistent_step env s e :
  consistent s -> enabled s e = true -> consistent (step env s e).
Proof.
  intros Hc He. destruct e; simpl in *.
  - by apply consistent_connect.
  - apply consistent_disconnect. by destruct Hc.
  - by apply consistent_sendMessage.
  - apply consistent_open; [done|].
    destruct (socket_state s i) as [[]|]; done.
  - by apply consistent_onmessage.
  - by apply consistent_onerror.
  - apply consistent_closing; [done|].
    destruct (socket_state s i) as [[]|]; done.
  - by apply consistent_close.
  - by apply consistent_timer.
  - by apply consistent_unmount.
Qed.

(** Every reachable state is consistent. *)
Theorem reachable_consistent env s : reachable env s -> consistent s.
Proof.
  induction 1 as [|s e _ IH He].
  - apply consistent_initial.
  - by apply consistent_step.
Qed.


Lemma run_reachable env es : forall s,
  reachable env s -> feasible env s es = true -> reachable env (run env s es).
Proof.
  induction es as [|e es IH]; intros s Hs Hf; simpl in *; [done|].
  apply andb_prop in Hf as [He Hf].
  apply IH; [by apply reach_step | done].
Qed.

(** ** What [disconnect] does *)

(** What one [disconnect()] does, from any state: flags, status, error and
    counter are reset, both refs are cleared, the timer the ref held is no
    longer pending, a socket that was open or opening is closing with code
    1000 and the intentional-disconnect reason, and no callback fires. *)
Lemma disconnect_effects s :
  let s' := disconnect s in
  isConnected s' = false /\ isConnecting s' = false
  /\ connectionStatus s' = Disconnected /\ error s' = None
  /\ reconnectCountRef s' = 0%Z
  /\ ws s' = None /\ reconnectTimeoutRef s' = None
  /\ calls s' = calls s
  /\ (forall t, reconnectTimeoutRef s = Some t -> t ∉ timers s')
  /\ (forall i k, ws s = Some i -> sockets s !! i = Some k ->
      live (readyState k) = true ->
      sockets s' !! i
      = Some (mkSocket (sock_url k) CLOSING (sent k)
                (Some (Some 1000%Z, Some (js "Intentional disconnect"))))).
Proof.
  intros s'. subst s'. rewrite disconnect_unfold; simpl.
  repeat split; try done.
  - intros t ->. intros [_ Hn]%elem_of_difference.
    by apply Hn, elem_of_singleton.
  - intros i k -> Hk Hl. unfold WebSocket_close. rewrite Hk.
    assert (Hlt : i < length (sockets s)) by by eapply lookup_lt_Some.
    destruct (readyState k); try done; simpl; by rewrite list_lookup_insert_eq.
Qed.

(** X8. A second [disconnect()] changes nothing at all: no second
    [close()] on a socket, no timer touched, no state cell or ref
    changed. *)
Lemma disconnect_idempotent s : disconnect (disconnect s) = disconnect s.
Proof. rewrite (disconnect_unfold (disconnect s)), disconnect_unfold. done. Qed.

(** ** [connect] *)

Lemma filter_live_length (l : list Socket) :
  (forall i j ki kj, l !! i = Some ki -> l !! j = Some kj ->
     live (readyState ki) = true -> live (readyState kj) = true -> i = j) ->
  length (filter (fun k => live (readyState k) = true) l) <= 1.
Proof.
  induction l as [|k l IH]; intros Huniq; simpl; [lia|].
  rewrite filter_cons. case_decide as Hk.
  - assert (Hnil : filter (fun k => live (readyState k) = true) l = []).
    { destruct (filter _ l) as [|k' l'] eqn:Hf; [done|].
      assert (Hin : k' ∈ filter (fun k => live (readyState k) = true) l)
        by (rewrite Hf; apply list_elem_of_here).
      apply list_elem_of_filter in Hin as [Hk' Hin].
      apply list_elem_of_lookup in Hin as [j Hj].
      by specialize (Huniq 0 (S j) k k' eq_refl Hj Hk Hk'). }
    rewrite Hnil. simpl. lia.
  - apply IH. intros i j ki kj Hi Hj Hli Hlj.
    by specialize (Huniq (S i) (S j) ki kj Hi Hj Hli Hlj) as [= ->].
Qed.

Lemma consistent_open_transports s : consistent s -> open_transports s <= 1.
Proof.
  intros Hc. apply filter_live_length. intros i j ki kj Hi Hj Hli Hlj.
  pose proof (only_current_live s Hc i (readyState ki)) as H1.
  pose proof (only_current_live s Hc j (readyState kj)) as H2.
  unfold socket_state in *. rewrite Hi in H1. rewrite Hj in H2.
  specialize (H1 eq_refl Hli). specialize (H2 eq_refl Hlj). congruence.
Qed.

Lemma current_live_open_transports s :
  is_CONNECTING (current_readyState s) || is_OPEN (current_readyState s) = true ->
  1 <= open_transports s.
Proof.
  unfold current_readyState, current, open_transports.
  destruct (ws s) as [i|]; simpl; [|done].
  destruct (sockets s !! i) as [k|] eqn:Hi; simpl; [|done].
  intros Hl.
  assert (Hin : k ∈ filter (fun k => live (readyState k) = true) (sockets s)).
  { apply list_elem_of_filter. split; [by destruct (readyState k)|].
    apply list_elem_of_lookup. eauto. }
  destruct (filter _ _); [by apply elem_of_nil in Hin | simpl; lia].
Qed.

Lemma connect_noop_when_live env s :
  is_CONNECTING (current_readyState s) || is_OPEN (current_readyState s) = true ->
  connect env s = s.
Proof.
  intros Hl. unfold connect. rewrite <- orb_assoc, Hl. by rewrite orb_true_r.
Qed.

Lemma connect_makes_live env s :
  url_falsy (url env) = false -> WebSocket_accepts env = true ->
  is_CONNECTING (current_readyState (connect env s))
  || is_OPEN (current_readyState (connect env s)) = true.
Proof.
  intros Hu Ha. unfold connect. rewrite Hu, Ha; simpl.
  destruct (is_CONNECTING (current_readyState s)
            || is_OPEN (current_readyState s)) eqn:Hg; [done|].
  unfold current_readyState, current; simpl.
  by rewrite lookup_app_r, Nat.sub_diag by lia.
Qed.

(** C1. Idempotent connect.  In every state the hook can reach, at most one
    transport is open or opening; [connect()] called while the socket it
    holds is open or opening changes nothing; and for a target the
    platform accepts, every [connect()] leaves exactly one transport open
    or opening, and a second [connect()] right after it changes nothing. *)
Theorem connect_idempotent env s :
  reachable env s ->
  open_transports s <= 1
  /\ (is_CONNECTING (current_readyState s) || is_OPEN (current_readyState s) = true ->
      connect env s = s)
  /\ (url_falsy (url env) = false -> WebSocket_accepts env = true ->
      open_transports (connect env s) = 1
      /\ connect env (connect env s) = connect env s
      /\ open_transports (connect env (connect env s)) = 1).
Proof.
  intros Hr. pose proof (reachable_consistent env s Hr) as Hc.
  split; [by apply consistent_open_transports|].
  split; [apply connect_noop_when_live|].
  intros Hu Ha.
  pose proof (connect_makes_live env s Hu Ha) as Hl.
  rewrite (connect_noop_when_live env (connect env s) Hl).
  pose proof (consistent_open_transports _ (consistent_connect env s Hc)).
  pose proof (current_live_open_transports _ Hl).
  repeat split; lia.
Qed.

(** C1 at a connected hook. *)
Lemma connect_idempotent_witness :
  reachable (sample_env 3) (run (sample_env 3) initial [Call_connect; Ev_open 0])
  /\ url_falsy (url (sample_env 3)) = false
  /\ WebSocket_accepts (sample_env 3) = true
  /\ open_transports
       (connect (sample_env 3)
          (connect (sample_env 3)
             (run (sample_env 3) initial [Call_connect; Ev_open 0]))) = 1.
Proof.
  assert (Hr : reachable (sample_env 3)
                 (run (sample_env 3) initial [Call_connect; Ev_open 0]))
    by (apply run_reachable; [constructor | reflexivity]).
  split; [exact Hr|]. split; [reflexivity|]. split; [reflexivity|].
  destruct (connect_idempotent (sample_env 3) _ Hr) as (_ & _ & H).
  apply (H eq_refl eq_refl).
Defined.

(** C9. [connect()] with a null or empty target returns at once: the whole
    state is unchanged, so no transport is created, no error is reported,
    and the status, the retry counter and the last error stay as they
    were. *)
Theorem connect_without_target env s :
  url_falsy (url env) = true ->
  connect env s = s
  /\ sockets (connect env s) = sockets s
  /\ error (connect env s) = error s
  /\ connectionStatus (connect env s) = connectionStatus s
  /\ reconnectCountRef (connect env s) = reconnectCountRef s.
Proof.
  intros Hu.
  assert (E : connect env s = s) by (unfold connect; by rewrite Hu).
  by rewrite E.
Qed.

(** C9 at a null and at an empty target. *)
Lemma connect_without_target_witness :
  url_falsy (url (mkEnv None 3 3000 true (fun _ => Throws))) = true
  /\ url_falsy (url (mkEnv (Some []) 3 3000 true (fun _ => Throws))) = true
  /\ connect (mkEnv None 3 3000 true (fun _ => Throws)) initial = initial
  /\ connect (mkEnv (Some []) 3 3000 true (fun _ => Throws)) initial = initial.
Proof.
  split; [reflexivity|]. split; [reflexivity|]. split.
  - apply (connect_without_target (mkEnv None 3 3000 true (fun _ => Throws))
             initial). reflexivity.
  - apply (connect_without_target (mkEnv (Some []) 3 3000 true (fun _ => Throws))
             initial). reflexivity.
Defined.

(** ** Inbound frames *)

(** A non-empty frame that is not JSON is delivered as a generic message
    whose payload is the frame text. *)
Lemma build_message_unparsable raw now :
  JSON_parse raw = None -> raw <> [] ->
  build_message raw now
  = Some {| type := JString (js "message");
            data := JString raw;
            timestamp := JString now |}.
Proof.
  intros Hp Hne. unfold build_message. rewrite Hp.
  destruct raw as [|c raw]; [done|].
  change (get_property (JObject ?f) ?k) with (Some (own_property k f)).
  vm_compute own_property. simpl.
  by destruct now.
Qed.

(** The frame [null] is JSON; reading [messageData.type] throws, and the
    outer [catch] leaves nothing delivered. *)
Lemma null_frame_dropped now s i : onmessage i (js "null") now s = s.
Proof. unfold onmessage. by destruct (isMountedRef s). Qed.

(** C2. The empty text frame is not JSON, and the hook does deliver one
    message of type [message] for it; but its payload is not the frame
    text (the empty string): it is the whole stand-in object, because
    [messageData.data || messageData] takes the empty string for absent. *)
Theorem empty_frame_payload now i :
  let wrapper := JObject [(js "type", JString (js "message"));
                          (js "data", JString []);
                          (js "timestamp", JString now)] in
  let m := {| type := JString (js "message");
              data := wrapper;
              timestamp := JString now |} in
  JSON_parse [] = None
  /\ build_message [] now = Some m
  /\ data m <> JString []
  /\ calls (onmessage i [] now initial) = [CbMessage i m].
Proof.
  assert (Hb : build_message [] now
               = Some {| type := JString (js "message");
                         data := JObject [(js "type", JString (js "message"));
                                          (js "data", JString []);
                                          (js "timestamp", JString now)];
                         timestamp := JString now |}).
  { unfold build_message. change (JSON_parse []) with (@None JsValue).
    simpl. by destruct now. }
  repeat split; try done.
  unfold onmessage. by rewrite Hb.
Qed.

(** C8 as stated fails: the frame [{type: '', data: x, timestamp: t}]
    carries all three fields, and is delivered with type [message]. *)
Lemma falsy_type_not_verbatim :
  type <$> build_message (jsq "{'type':'','data':'x','timestamp':'t'}") (js "now")
  = Some (JString (js "message"))
  /\ ~ verbatim_claim.
Proof.
  split; [reflexivity|]. intros H.
  specialize (H (jsq "{'type':'','data':'x','timestamp':'t'}") (js "now")
                [(js "type", JString []); (js "data", JString (js "x"));
                 (js "timestamp", JString (js "t"))]
                (JString []) (JString (js "x")) (JString (js "t"))
                eq_refl eq_refl eq_refl eq_refl).
  vm_compute in H. discriminate H.
Qed.

(** C8, amended.  A frame that parses as an object is delivered as one
    message.  Each of [type], [data] and [timestamp] that the object
    carries with a truthy value is used verbatim; a falsy or missing
    [type] becomes [message] and a falsy or missing [timestamp] the
    receipt time.  The frame [{type: log, data: line2}] is delivered with
    type [log] and payload [line2]. *)
Theorem truthy_fields_verbatim raw now fields i s :
  JSON_parse raw = Some (JObject fields) ->
  isMountedRef s = true ->
  (exists m,
     build_message raw now = Some m
     /\ onmessage i raw now s = fire (CbMessage i m) (setLastMessage (Some m) s)
     /\ (forall t, own_property (js "type") fields = Some t ->
                   truthy t = true -> type m = t)
     /\ (forall d, own_property (js "data") fields = Some d ->
                   truthy d = true -> data m = d)
     /\ (forall ts, own_property (js "timestamp") fields = Some ts ->
                    truthy ts = true -> timestamp m = ts)
     /\ (absent_or_falsy (own_property (js "type") fields) = true ->
         type m = JString (js "message"))
     /\ (absent_or_falsy (own_property (js "timestamp") fields) = true ->
         timestamp m = JString now))
  /\ (exists m',
        build_message (jsq "{'type':'log','data':'line2'}") now = Some m'
        /\ type m' = JString (js "log") /\ data m' = JString (js "line2")).
Proof.
  intros Hp Hm. split.
  - eexists. split; [unfold build_message; rewrite Hp; reflexivity|].
    split; [unfold onmessage, build_message; by rewrite Hm, Hp|].
    simpl. repeat split.
    + intros t -> Ht. unfold js_or. by rewrite Ht.
    + intros d -> Hd. unfold js_or. by rewrite Hd.
    + intros ts -> Hts. unfold js_or. by rewrite Hts.
    + unfold js_or, absent_or_falsy.
      destruct (own_property (js "type") fields) as [t|]; [|done].
      by destruct (truthy t).
    + unfold js_or, absent_or_falsy.
      destruct (own_property (js "timestamp") fields) as [t|]; [|done].
      by destruct (truthy t).
  - eexists. split; [vm_compute; reflexivity|]. done.
Qed.

(** C8, amended, at a frame with three truthy fields. *)
Lemma truthy_fields_verbatim_witness :
  JSON_parse (jsq "{'type':'log','data':{'line':7},'timestamp':'t0'}")
  = Some (JObject [(js "type", JString (js "log"));
                   (js "data", JObject [(js "line", JNumber (mkNumber false 7 0))]);
                   (js "timestamp", JString (js "t0"))])
  /\ isMountedRef initial = true
  /\ exists m,
       build_message (jsq "{'type':'log','data':{'line':7},'timestamp':'t0'}")
         (js "now") = Some m
       /\ type m = JString (js "log")
       /\ data m = JObject [(js "line", JNumber (mkNumber false 7 0))]
       /\ timestamp m = JString (js "t0").
Proof.
  split; [reflexivity|]. split; [reflexivity|].
  destruct (truthy_fields_verbatim
              (jsq "{'type':'log','data':{'line':7},'timestamp':'t0'}")
              (js "now") _ 0 initial eq_refl eq_refl)
    as [[m (Hm & _ & Ht & Hd & Hts & _)] _].
  exists m. split; [exact Hm|]. split; [|split].
  - apply Ht; reflexivity.
  - apply Hd; reflexivity.
  - apply Hts; reflexivity.
Defined.

(** ** [sendMessage] *)

Lemma sendMessage_not_open env w m s :
  is_OPEN (current_readyState s) = false ->
  sendMessage env w m s
  = setError (Some "Cannot send message: not connected"%string) s.
Proof.
  unfold sendMessage, current_readyState.
  destruct (current s) as [[i k]|]; simpl; [|done].
  by destruct (readyState k).
Qed.

(** C4 as stated fails: after [superseded_close] the status is
    [Disconnected] while the hook holds an open socket; [sendMessage]
    writes to it and reports nothing. *)
Lemma send_succeeds_while_disconnected :
  (feasible (sample_env 3) initial superseded_close = true
   /\ connectionStatus (run (sample_env 3) initial superseded_close) = Disconnected
   /\ error (sendMessage (sample_env 3) false (AString (js "x"))
               (run (sample_env 3) initial superseded_close)) = None
   /\ sent <$> sockets (sendMessage (sample_env 3) false (AString (js "x"))
                          (run (sample_env 3) initial superseded_close)) !! 1
      = Some [js "x"])
  /\ ~ not_connected_claim (sample_env 3).
Proof.
  split; [vm_compute; repeat split; reflexivity|].
  intros H.
  assert (Hr : reachable (sample_env 3) (run (sample_env 3) initial superseded_close))
    by (apply run_reachable; [constructor | reflexivity]).
  destruct (H _ false (AString (js "x")) Hr) as [He _]; [by vm_compute|].
  vm_compute in He. discriminate He.
Qed.

(** C4, amended.  What [sendMessage] tests is the socket, not the status.
    Whenever the hook holds no socket or its socket is not [OPEN] - which
    includes every state of a mounted hook with status [Connecting] - the
    call only sets the error to the not-connected message: nothing is
    written to any socket, nothing is thrown, no callback fires, and the
    status and the two connection flags are unchanged. *)
Theorem send_without_open_transport env s w m :
  (is_OPEN (current_readyState s) = false
   \/ (reachable env s /\ isMountedRef s = true /\ connectionStatus s = Connecting)) ->
  let s' := sendMessage env w m s in
  s' = setError (Some "Cannot send message: not connected"%string) s
  /\ error s' = Some "Cannot send message: not connected"%string
  /\ sockets s' = sockets s
  /\ connectionStatus s' = connectionStatus s
  /\ isConnected s' = isConnected s
  /\ isConnecting s' = isConnecting s
  /\ calls s' = calls s.
Proof.
  intros H s'.
  assert (Hn : is_OPEN (current_readyState s) = false).
  { destruct H as [H|(Hr & Hm & Hc)]; [done|].
    by apply (connecting_not_open s (reachable_consistent env s Hr)). }
  subst s'. by rewrite (sendMessage_not_open env w m s Hn).
Qed.

(** C4, amended, at a hook that is connecting. *)
Lemma send_without_open_transport_witness :
  (reachable (sample_env 3) (connect (sample_env 3) initial)
   /\ isMountedRef (connect (sample_env 3) initial) = true
   /\ connectionStatus (connect (sample_env 3) initial) = Connecting)
  /\ error (sendMessage (sample_env 3) false (AOther 0) (connect (sample_env 3) initial))
     = Some "Cannot send message: not connected"%string
  /\ sockets (sendMessage (sample_env 3) false (AOther 0) (connect (sample_env 3) initial))
     = sockets (connect (sample_env 3) initial).
Proof.
  assert (H : reachable (sample_env 3) (connect (sample_env 3) initial)
              /\ isMountedRef (connect (sample_env 3) initial) = true
              /\ connectionStatus (connect (sample_env 3) initial) = Connecting).
  { split; [|split; reflexivity].
    apply (reach_step _ initial Call_connect); [constructor | reflexivity]. }
  split; [exact H|].
  destruct (send_without_open_transport (sample_env 3) _ false (AOther 0)
              (or_intror H)) as (_ & He & Hs & _).
  split; [exact He | exact Hs].
Defined.

(** C10 as stated fails.  After the server has started the closing
    handshake the status is still [Connected] while the socket is
    [CLOSING]: [sendMessage] then reports the not-connected failure and
    writes nothing.  And on an open socket a value for which
    [JSON.stringify] returns [undefined] goes out as the text
    [undefined], which is not JSON. *)
Lemma connected_send_while_closing :
  (feasible (sample_env 3) initial server_closing = true
   /\ isMountedRef (run (sample_env 3) initial server_closing) = true
   /\ connectionStatus (run (sample_env 3) initial server_closing) = Connected
   /\ socket_state (run (sample_env 3) initial server_closing) 0 = Some CLOSING
   /\ error (sendMessage (sample_env 3) false (AString (js "x"))
               (run (sample_env 3) initial server_closing))
      = Some "Cannot send message: not connected"%string
   /\ sent <$> sockets (sendMessage (sample_env 3) false (AString (js "x"))
                          (run (sample_env 3) initial server_closing)) !! 0
      = Some [])
  /\ (JSON_stringify (sample_env 3) 1 = Undefined
      /\ sent <$> sockets (sendMessage (sample_env 3) false (AOther 1)
                             (run (sample_env 3) initial [Call_connect; Ev_open 0])) !! 0
         = Some [js "undefined"]
      /\ JSON_parse (js "undefined") = None)
  /\ ~ connected_send_claim (sample_env 3).
Proof.
  split; [vm_compute; repeat split; reflexivity|].
  split; [vm_compute; repeat split; reflexivity|].
  intros H.
  assert (Hr : reachable (sample_env 3) (run (sample_env 3) initial server_closing))
    by (apply run_reachable; [constructor | reflexivity]).
  destruct (H _ Hr eq_refl eq_refl) as (i & k & Hw & Hk & Hs & _).
  vm_compute in Hw. injection Hw as <-.
  specialize (Hs (js "x")). vm_compute in Hk. injection Hk as <-.
  vm_compute in Hs. discriminate Hs.
Qed.

(** C10, amended.  What [sendMessage] tests is the socket.  Whenever the
    socket the hook holds is [OPEN], whatever the status: the status,
    the two connection flags, [lastMessage] and the callbacks fired are
    unchanged.  With a transport that takes the write, a string goes out
    verbatim and any other value goes out as the text [JSON.stringify]
    returns for it, appended to what that socket has sent, with the error
    untouched; when [JSON.stringify] returns [undefined], the text
    [undefined] goes out, which is not JSON.  If [JSON.stringify] throws
    or the write throws, nothing is written and the error is the
    failed-to-send message: nothing is propagated.
    On a mounted hook in status [Connected], in every state the hook can
    reach, the socket it holds is [OPEN], or it is [CLOSING] because the
    server has started the closing handshake; in that case [sendMessage]
    writes nothing and reports the not-connected failure, and the status
    stays [Connected]. *)
Theorem send_with_open_transport env s w m :
  let s' := sendMessage env w m s in
  (forall i k,
     ws s = Some i -> sockets s !! i = Some k -> readyState k = OPEN ->
     (connectionStatus s' = connectionStatus s
      /\ isConnected s' = isConnected s
      /\ isConnecting s' = isConnecting s
      /\ lastMessage s' = lastMessage s
      /\ calls s' = calls s)
     /\ (w = false ->
         forall t,
           m = AString t
           \/ (exists v, m = AOther v /\ JSON_stringify env v = Text t)
           \/ (t = js "undefined"
               /\ exists v, m = AOther v /\ JSON_stringify env v = Undefined) ->
           sockets s'
           = <[i := mkSocket (sock_url k) OPEN (sent k ++ [t]) (closing k)]> (sockets s)
           /\ error s' = error s
           /\ s' = transmit i k t s)
     /\ (w = true \/ (exists v, m = AOther v /\ JSON_stringify env v = Throws) ->
         sockets s' = sockets s
         /\ error s' = Some "Failed to send message"%string
         /\ s' = setError (Some "Failed to send message"%string) s))
  /\ JSON_parse (js "undefined") = None
  /\ (reachable env s -> isMountedRef s = true -> connectionStatus s = Connected ->
      exists i k,
        ws s = Some i /\ sockets s !! i = Some k
        /\ (readyState k = OPEN
            \/ (readyState k = CLOSING
                /\ error s' = Some "Cannot send message: not connected"%string
                /\ sockets s' = sockets s
                /\ connectionStatus s' = Connected))).
Proof.
  intros s'. split; [|split; [by vm_compute|]].
  - intros i k Hw Hi Hk.
    assert (Hsend : forall t, WebSocket_send false i t s = Some (transmit i k t s)).
    { intros t. unfold WebSocket_send. by rewrite Hi, Hk. }
    assert (Hs' : s' = match t ← messageString env m; WebSocket_send w i t s with
                       | Some s1 => s1
                       | None => setError (Some "Failed to send message"%string) s
                       end).
    { subst s'. unfold sendMessage, current. rewrite Hw; simpl. rewrite Hi; simpl.
      by rewrite Hk. }
    assert (Hb : forall o,
               (t ← o; WebSocket_send w i t s)
               = if w then None else (fun t => transmit i k t s) <$> o).
    { intros [t|]; cbn [mbind option_bind fmap option_fmap option_map];
        [|by destruct w].
      destruct w; [done|apply Hsend]. }
    rewrite Hb in Hs'. clear Hb Hsend.
    split; [|split].
    + rewrite Hs'. destruct w; [done|]. by destruct (messageString env m).
    + intros -> t Ht.
      assert (Hm : messageString env m = Some t).
      { destruct Ht as [->|[(v & -> & Hv)|(-> & v & -> & Hv)]]; simpl;
          by rewrite ?Hv. }
      rewrite Hm in Hs'. by rewrite Hs'.
    + intros [-> | (v & -> & Hv)]; rewrite Hs'; [done|].
      simpl. rewrite Hv. by destruct w.
  - intros Hr Hm Hc.
    destruct (connected_not_closed s (reachable_consistent env s Hr) Hm Hc)
      as [Ho|Ho].
    + unfold current_readyState, current in Ho.
      destruct (ws s) as [i|] eqn:Hw; simpl in Ho; [|done].
      destruct (sockets s !! i) as [k|] eqn:Hi; simpl in Ho; [|done].
      exists i, k. split; [done|]. split; [done|]. left. by injection Ho.
    + assert (Hn : is_OPEN (current_readyState s) = false) by by rewrite Ho.
      unfold current_readyState, current in Ho.
      destruct (ws s) as [i|] eqn:Hw; simpl in Ho; [|done].
      destruct (sockets s !! i) as [k|] eqn:Hi; simpl in Ho; [|done].
      exists i, k. split; [done|]. split; [done|]. right.
      split; [by injection Ho|].
      subst s'. by rewrite (sendMessage_not_open env w m s Hn).
Qed.

(** C10, amended, at a connected hook: its socket is open, and the object
    of the test [sends messages when connected] goes out as its JSON
    text. *)
Lemma send_with_open_transport_witness :
  ws (run (sample_env 3) initial [Call_connect; Ev_open 0]) = Some 0
  /\ sockets (run (sample_env 3) initial [Call_connect; Ev_open 0]) !! 0
     = Some (mkSocket (js "ws://host/logs/abc123") OPEN [] None)
  /\ JSON_stringify (sample_env 3) 0 = Text (jsq "{'type':'ping'}")
  /\ sockets (sendMessage (sample_env 3) false (AOther 0)
                (run (sample_env 3) initial [Call_connect; Ev_open 0]))
     = <[0 := mkSocket (js "ws://host/logs/abc123") OPEN
               ([] ++ [jsq "{'type':'ping'}"]) None]>
         (sockets (run (sample_env 3) initial [Call_connect; Ev_open 0])).
Proof.
  split; [reflexivity|]. split; [reflexivity|]. split; [reflexivity|].
  destruct (send_with_open_transport (sample_env 3)
              (run (sample_env 3) initial [Call_connect; Ev_open 0])
              false (AOther 0)) as [H _].
  destruct (H 0 (mkSocket (js "ws://host/logs/abc123") OPEN [] None)
              eq_refl eq_refl eq_refl) as (_ & Hs & _).
  destruct (Hs eq_refl (jsq "{'type':'ping'}")) as [Hsock _].
  - right. left. by exists 0.
  - exact Hsock.
Defined.

(** The object of the test [sends messages when connected] goes out as
    its JSON text; [undefined] goes out as the text [undefined]; a value
    [JSON.stringify] rejects sets the error and sends nothing. *)
Example send_ping :
  let s := run (sample_env 3) initial [Call_connect; Ev_open 0] in
  sent <$> sockets (sendMessage (sample_env 3) false (AOther 0) s) !! 0
  = Some [jsq "{'type':'ping'}"]
  /\ sent <$> sockets (sendMessage (sample_env 3) false (AString (js "hi")) s) !! 0
     = Some [js "hi"]
  /\ sent <$> sockets (sendMessage (sample_env 3) false (AOther 1) s) !! 0
     = Some [js "undefined"]
  /\ sendMessage (sample_env 3) false (AOther 2) s
     = setError (Some "Failed to send message"%string) s.
Proof. vm_compute. repeat split; reflexivity. Qed.

(** ** Close events and retries *)

(** The only place that counts a retry is the close handler, and it does so
    only below the maximum. *)
Lemma onclose_counter env i wasClean code reason s :
  reconnectCountRef (onclose env i wasClean code reason s) = reconnectCountRef s
  \/ ((reconnectCountRef s < reconnectAttempts env)%Z
      /\ reconnectCountRef (onclose env i wasClean code reason s)
         = (reconnectCountRef s + 1)%Z).
Proof.
  unfold onclose. destruct s as [c1 c2 e lm st w rt rc m so ti nt ca].
  hook_unfold. destruct m; cbn [negb]; [|by left].
  destruct wasClean; cbn [negb andb]; [by left|].
  destruct (rc <? reconnectAttempts env)%Z eqn:Hlt; [|by left].
  right. split; [by apply Z.ltb_lt|done].
Qed.

Lemma connect_counter env s :
  reconnectCountRef (connect env s) = reconnectCountRef s.
Proof.
  unfold connect. destruct (_ || _); [done|].
  destruct s as [c1 c2 e lm st w rt rc m so ti nt ca].
  destruct (WebSocket_accepts env); [done|]. by destruct m.
Qed.

Lemma step_counter env s e :
  reconnectCountRef (step env s e) = reconnectCountRef s
  \/ reconnectCountRef (step env s e) = 0%Z
  \/ ((reconnectCountRef s < reconnectAttempts env)%Z
      /\ reconnectCountRef (step env s e) = (reconnectCountRef s + 1)%Z).
Proof.
  assert (B : forall r i, reconnectCountRef (socket_becomes r i s) = reconnectCountRef s).
  { intros r i. apply socket_becomes_fields. }
  destruct e; cbn [step].
  - left. apply connect_counter.
  - right; left. apply disconnect_effects.
  - left. unfold sendMessage.
    destruct (current s) as [[i k]|]; [|done].
    destruct (readyState k); try done.
    destruct (messageString env message) as [t|]; simpl; [|done].
    unfold WebSocket_send. destruct write_throws; [done|].
    destruct (sockets s !! i) as [k'|]; [|done].
    by destruct (readyState k').
  - unfold onopen.
    destruct (isMountedRef (socket_becomes OPEN i s)); cbn [negb];
      [right; left; done | left; apply B].
  - left. unfold onmessage. destruct (isMountedRef s); [|done].
    by destruct (build_message raw now).
  - left. unfold onerror. by destruct (isMountedRef s).
  - left. apply B.
  - destruct (onclose_counter env i wasClean code reason (socket_becomes CLOSED i s))
      as [E|[Hlt E]]; rewrite E, B in *; auto.
  - left. unfold retry.
    destruct (isMountedRef (clearTimeout t s)); [by rewrite connect_counter|done].
  - right; left. by rewrite unmount_unfold.
Qed.

(** X3. In every state the hook can reach, the retry counter lies between
    0 and [reconnectAttempts] (between 0 and 0 if that is negative). *)
Theorem retry_counter_bounded env s :
  reachable env s ->
  (0 <= reconnectCountRef s <= Z.max 0 (reconnectAttempts env))%Z.
Proof.
  induction 1 as [|s e _ IH _]; [simpl; lia|].
  destruct (step_counter env s e) as [->|[->|[Hlt ->]]]; lia.
Qed.

(** X3 after the one retry allowed has failed. *)
Lemma retry_counter_bounded_witness :
  reachable (sample_env 1) (run (sample_env 1) initial retries_used_up)
  /\ (0 <= reconnectCountRef (run (sample_env 1) initial retries_used_up)
      <= Z.max 0 (reconnectAttempts (sample_env 1)))%Z.
Proof.
  assert (Hr : reachable (sample_env 1) (run (sample_env 1) initial retries_used_up))
    by (apply run_reachable; [constructor | reflexivity]).
  split; [exact Hr|].
  apply (retry_counter_bounded (sample_env 1) _ Hr).
Defined.

(** C6 as stated fails: with [reconnectAttempts = 0] the budget is used up
    from the start, and an abnormal close in status [Connected] leads to
    [Error].  So does, with one retry allowed, the abnormal close that
    follows the one retry. *)
Lemma exhausted_close_is_error :
  (connectionStatus (run (sample_env 0) initial [Call_connect; Ev_open 0]) = Connected
   /\ reconnectCountRef (run (sample_env 0) initial [Call_connect; Ev_open 0])
      = reconnectAttempts (sample_env 0)
   /\ connectionStatus
        (run (sample_env 0) initial
           [Call_connect; Ev_open 0; Ev_close 0 false 1006 []]) = Error
   /\ connectionStatus (run (sample_env 1) initial retries_used_up) = Error
   /\ timers (run (sample_env 1) initial retries_used_up) = ∅)
  /\ ~ exhausted_close_claim (sample_env 0).
Proof.
  split; [vm_compute; repeat split; reflexivity|].
  intros H.
  assert (Hr : reachable (sample_env 0)
                 (run (sample_env 0) initial [Call_connect; Ev_open 0]))
    by (apply run_reachable; [constructor | reflexivity]).
  specialize (H _ 0 1006%Z [] Hr eq_refl eq_refl).
  vm_compute in H. by specialize (H ltac:(discriminate)).
Qed.

(** C6, amended.  A close event on a mounted hook clears both connection
    flags and reports the close to the consumer.  The status it leaves
    depends on [wasClean] alone: [Disconnected] after a clean close,
    [Error] with the connection-lost message after an abnormal one,
    whatever the retry counter.  The retry budget only decides whether a
    reconnect is scheduled: after an abnormal close with the counter below
    [reconnectAttempts] the counter goes up by one and a new timer is
    pending and stored in [reconnectTimeoutRef]; otherwise counter, ref
    and pending timers are unchanged. *)
Theorem close_status_ignores_budget env s i wasClean code reason :
  isMountedRef s = true ->
  let s' := step env s (Ev_close i wasClean code reason) in
  isConnected s' = false /\ isConnecting s' = false
  /\ connectionStatus s' = (if wasClean then Disconnected else Error)
  /\ (wasClean = false -> error s' = Some "Connection lost unexpectedly"%string)
  /\ calls s' = calls s ++ [CbClose i wasClean code reason]
  /\ (if negb wasClean && (reconnectCountRef s <? reconnectAttempts env)%Z
      then reconnectCountRef s' = (reconnectCountRef s + 1)%Z
           /\ reconnectTimeoutRef s' = Some (nextTimer s)
           /\ timers s' = {[nextTimer s]} ∪ timers s
      else reconnectCountRef s' = reconnectCountRef s
           /\ reconnectTimeoutRef s' = reconnectTimeoutRef s
           /\ timers s' = timers s).
Proof.
  intros Hm s'. subst s'. simpl.
  assert (E : forall r, socket_becomes r i s = s
                        \/ exists l, socket_becomes r i s = set_sockets l s).
  { intros r. unfold socket_becomes. destruct (sockets s !! i); eauto. }
  unfold onclose.
  destruct (E CLOSED) as [->|[l ->]]; simpl; rewrite Hm; simpl;
    destruct wasClean; simpl; try done;
    destruct (reconnectCountRef s <? reconnectAttempts env)%Z; simpl; done.
Qed.

(** C6, amended, at an abnormal close with no retries allowed. *)
Lemma close_status_ignores_budget_witness :
  isMountedRef (run (sample_env 0) initial [Call_connect; Ev_open 0]) = true
  /\ connectionStatus
       (step (sample_env 0) (run (sample_env 0) initial [Call_connect; Ev_open 0])
          (Ev_close 0 false 1006 [])) = Error.
Proof.
  split; [reflexivity|].
  apply (close_status_ignores_budget (sample_env 0) _ 0 false 1006%Z []).
  reflexivity.
Defined.

(** C3.  With [reconnectAttempts = 1]: the connection drops (retry 1 is
    scheduled), the consumer calls [connect()] before the timer fires, and
    the new connection drops too.  That close finds the counter at the
    maximum and schedules nothing - but the first timer is still pending,
    since [connect()] never clears it.  When it fires, the hook goes to
    [Connecting] on a third socket, with no [connect()] call after the
    budget ran out. *)
Theorem pending_retry_outlives_exhaustion :
  let env := sample_env 1 in
  let s := run env initial drop_connect_drop in
  feasible env initial (drop_connect_drop ++ [Ev_timer 1]) = true
  /\ reconnectCountRef s = reconnectAttempts env
  /\ timers s = timers (run env initial (take 4 drop_connect_drop))
  /\ connectionStatus s = Error
  /\ connectionStatus (step env s (Ev_timer 1)) = Connecting
  /\ ws (step env s (Ev_timer 1)) = Some 2.
Proof. vm_compute. repeat split; reflexivity. Qed.

(** ** [disconnect] and teardown *)

(** C7.  With [reconnectAttempts = 2]: the connection drops (timer 1), the
    consumer calls [connect()] before it fires, and the new connection
    drops too (timer 2, whose id overwrites timer 1 in
    [reconnectTimeoutRef]).  [disconnect()] then clears timer 2 only:
    timer 1 is still pending, and when it fires the hook leaves
    [Disconnected] for [Connecting]. *)
Theorem disconnect_leaves_overwritten_timer :
  let env := sample_env 2 in
  let s := run env initial drop_connect_drop in
  feasible env initial (drop_connect_drop ++ [Call_disconnect; Ev_timer 1]) = true
  /\ timers s = {[1; 2]}
  /\ reconnectTimeoutRef s = Some 2
  /\ timers (disconnect s) = {[1]}
  /\ connectionStatus (disconnect s) = Disconnected
  /\ connectionStatus (step env (disconnect s) (Ev_timer 1)) = Connecting.
Proof. vm_compute. repeat split; reflexivity. Qed.

(** C5 as stated fails: the close event of the socket that [disconnect]
    let go of still fires [onClose]. *)
Lemma close_event_after_disconnect :
  calls (run (sample_env 3) initial
           [Call_connect; Ev_open 0; Call_disconnect;
            Ev_close 0 true 1000 (js "Intentional disconnect")])
  = [CbOpen 0; CbClose 0 true 1000 (js "Intentional disconnect")]
  /\ ~ suppression_claim (sample_env 3).
Proof.
  split; [reflexivity|]. intros H.
  assert (Hr : reachable (sample_env 3)
                 (run (sample_env 3) initial [Call_connect; Ev_open 0]))
    by (apply run_reachable; [constructor | reflexivity]).
  specialize (H _ 0 (Ev_close 0 true 1000 (js "Intentional disconnect"))
                Hr eq_refl eq_refl eq_refl).
  vm_compute in H. discriminate H.
Qed.

(** The socket [disconnect] lets go of is closing or closed afterwards. *)
Lemma socket_state_disconnect s i :
  ws s = Some i ->
  socket_state (disconnect s) i
  = (fun r => if live r then CLOSING else r) <$> socket_state s i.
Proof.
  intros Hw. rewrite disconnect_unfold. unfold socket_state at 1.
  cbn [sockets]. rewrite Hw.
  pose proof (socket_state_close i (Some 1000%Z)
                (Some (js "Intentional disconnect")) s i) as E.
  unfold socket_state at 1 in E. rewrite E. by rewrite bool_decide_eq_true_2.
Qed.

(** C5, amended.  [disconnect()] clears [reconnectTimeoutRef], cancels the
    timer it held and lets go of the socket.  That socket is then closing,
    so the platform dispatches no further open or message event on it; but
    [disconnect()] does not silence it: on a mounted hook every close
    event that follows, from whichever socket, still fires [onClose].
    What silences sockets and timers is the teardown of the owning
    component: it leaves [isMountedRef] false, nothing sets it back, and
    from then on no open, message, error or close event and no timer
    changes the hook's state cells or refs or reaches a consumer
    callback. *)
Theorem teardown_suppresses env s :
  (reconnectTimeoutRef (disconnect s) = None
   /\ ws (disconnect s) = None
   /\ (forall t, reconnectTimeoutRef s = Some t -> t ∉ timers (disconnect s)))
  /\ (forall i, ws s = Some i ->
      enabled (disconnect s) (Ev_open i) = false
      /\ forall raw now, enabled (disconnect s) (Ev_message i raw now) = false)
  /\ (isMountedRef s = true ->
      forall i wasClean code reason,
        calls (step env (disconnect s) (Ev_close i wasClean code reason))
        = calls s ++ [CbClose i wasClean code reason])
  /\ isMountedRef (unmount s) = false
  /\ (isMountedRef s = false ->
      forall e, isMountedRef (step env s e) = false
                /\ (from_platform e = true -> hook_view (step env s e) = hook_view s)).
Proof.
  destruct (disconnect_effects s) as (_ & _ & _ & _ & _ & Hw & Ht & Hca & Hc & _).
  split; [done|]. split; [|split; [|split; [by rewrite unmount_unfold|]]].
  - intros i Hi. cbn [enabled]. rewrite (socket_state_disconnect s i Hi).
    destruct (socket_state s i) as [[]|]; done.
  - intros Hm i wasClean code reason. rewrite <- Hca. cbn [step].
    assert (Hm' : isMountedRef (socket_becomes CLOSED i (disconnect s)) = true).
    { destruct (socket_becomes_fields CLOSED i (disconnect s)) as (_ & _ & -> & _).
      by destruct (disconnect_refs s) as (_ & _ & ->). }
    assert (Hcalls : calls (socket_becomes CLOSED i (disconnect s))
                     = calls (disconnect s)).
    { unfold socket_becomes. by destruct (sockets (disconnect s) !! i). }
    unfold onclose. rewrite Hm'. cbn [negb]. rewrite <- Hcalls.
    destruct (socket_becomes CLOSED i (disconnect s)).
    destruct wasClean; cbn [negb andb]; hook_unfold; [done|].
    by destruct (_ <? _)%Z.
  - intros Hm e.
    assert (E : forall r i, hook_view (socket_becomes r i s) = hook_view s
                            /\ isMountedRef (socket_becomes r i s) = false).
    { intros r i. unfold socket_becomes. by destruct (sockets s !! i). }
    split.
    + destruct e; cbn [step].
      * unfold connect. destruct (_ || _); [done|].
        destruct (WebSocket_accepts env); simpl; [done|]. by rewrite Hm.
      * by destruct (disconnect_refs s) as (_ & _ & ->).
      * unfold sendMessage.
        destruct (current s) as [[i k]|]; [|done].
        destruct (readyState k); try done.
        destruct (messageString env message) as [t|]; simpl; [|done].
        unfold WebSocket_send. destruct write_throws; [done|].
        destruct (sockets s !! i) as [k'|]; [|done].
        by destruct (readyState k').
      * unfold onopen. destruct (E OPEN i) as [_ ->]. simpl. by apply E.
      * unfold onmessage. by rewrite Hm.
      * unfold onerror. by rewrite Hm.
      * by apply E.
      * unfold onclose. destruct (E CLOSED i) as [_ ->]. simpl. by apply E.
      * unfold retry. simpl. by rewrite Hm.
      * by rewrite unmount_unfold.
    + destruct e; try done; intros _; cbn [step].
      * unfold onopen. destruct (E OPEN i) as [Hv ->]. by simpl.
      * unfold onmessage. by rewrite Hm.
      * unfold onerror. by rewrite Hm.
      * by apply E.
      * unfold onclose. destruct (E CLOSED i) as [Hv ->]. by simpl.
      * unfold retry. simpl. by rewrite Hm.
Qed.

(** C5, amended: the close event that follows a teardown changes nothing. *)
Lemma teardown_suppresses_witness :
  isMountedRef torn_down = false
  /\ from_platform (Ev_close 0 true 1000 (js "Intentional disconnect")) = true
  /\ hook_view (step (sample_env 3) torn_down
                  (Ev_close 0 true 1000 (js "Intentional disconnect")))
     = hook_view torn_down.
Proof.
  destruct (teardown_suppresses (sample_env 3) torn_down) as (_ & _ & _ & _ & H).
  split; [reflexivity|]. split; [reflexivity|].
  apply (H eq_refl (Ev_close 0 true 1000 (js "Intentional disconnect"))).
  reflexivity.
Defined.

(** * Further properties of the hook and of the code around it *)

(** ** Callbacks follow the events *)

Lemma socket_becomes_calls r i s :
  calls (socket_becomes r i s) = calls s
  /\ lastMessage (socket_becomes r i s) = lastMessage s.
Proof. unfold socket_becomes. by destruct (sockets s !! i). Qed.

Lemma connect_quiet env s :
  calls (connect env s) = calls s
  /\ lastMessage (connect env s) = lastMessage s
  /\ isMountedRef (connect env s) = isMountedRef s.
Proof.
  unfold connect. destruct (_ || _); [done|].
  destruct s as [c1 c2 e lm st w rt rc m so ti nt ca].
  destruct (WebSocket_accepts env); [done|]. by destruct m.
Qed.

Lemma sendMessage_quiet env w m s :
  calls (sendMessage env w m s) = calls s
  /\ lastMessage (sendMessage env w m s) = lastMessage s
  /\ isMountedRef (sendMessage env w m s) = isMountedRef s.
Proof.
  unfold sendMessage.
  destruct (current s) as [[i k]|]; [|done].
  destruct (readyState k); try done.
  destruct (messageString env m) as [t|]; simpl; [|done].
  unfold WebSocket_send. destruct w; [done|].
  destruct (sockets s !! i) as [k'|]; [|done].
  by destruct (readyState k').
Qed.

Lemma onopen_mounted i s :
  isMountedRef s = true ->
  isMountedRef (onopen i s) = true
  /\ calls (onopen i s) = calls s ++ [CbOpen i]
  /\ lastMessage (onopen i s) = lastMessage s.
Proof.
  destruct s as [c1 c2 e lm st w rt rc m so ti nt ca]. cbn [isMountedRef].
  intros ->. done.
Qed.

Lemma onclose_mounted env i wasClean code reason s :
  isMountedRef s = true ->
  isMountedRef (onclose env i wasClean code reason s) = true
  /\ calls (onclose env i wasClean code reason s)
     = calls s ++ [CbClose i wasClean code reason]
  /\ lastMessage (onclose env i wasClean code reason s) = lastMessage s.
Proof.
  destruct s as [c1 c2 e lm st w rt rc m so ti nt ca]. cbn [isMountedRef].
  intros ->. unfold onclose. hook_unfold. cbn [negb].
  destruct wasClean; cbn [negb andb]; [done|].
  by destruct (_ <? _)%Z.
Qed.

(** One event on a mounted hook: the callback it fires and the message it
    leaves in [lastMessage]. *)
Lemma step_mounted env s e :
  isMountedRef s = true -> is_unmount e = false ->
  isMountedRef (step env s e) = true
  /\ calls (step env s e) = calls s ++ option_list (callback_of e)
  /\ lastMessage (step env s e)
     = match message_of e with Some m => Some m | None => lastMessage s end.
Proof.
  intros Hm Hu. unfold option_list.
  destruct e; try done; cbn [step callback_of message_of option_rect].
  - destruct (connect_quiet env s) as (-> & -> & ->). by rewrite app_nil_r.
  - rewrite disconnect_unfold. cbn [isMountedRef calls lastMessage].
    by rewrite app_nil_r.
  - destruct (sendMessage_quiet env write_throws message s) as (-> & -> & ->).
    by rewrite app_nil_r.
  - destruct (socket_becomes_calls OPEN i s) as [Hc Hl].
    destruct (socket_becomes_fields OPEN i s) as (_ & _ & Hm' & _).
    rewrite Hm in Hm'.
    destruct (onopen_mounted i _ Hm') as (-> & -> & ->). by rewrite Hc, Hl.
  - unfold onmessage. rewrite Hm. cbn [negb].
    destruct (build_message raw now) as [m|]; cbn; [done|].
    by rewrite app_nil_r.
  - unfold onerror. rewrite Hm. by cbn.
  - destruct (socket_becomes_calls CLOSING i s) as [-> ->].
    destruct (socket_becomes_fields CLOSING i s) as (_ & _ & -> & _).
    by rewrite app_nil_r.
  - destruct (socket_becomes_calls CLOSED i s) as [Hc Hl].
    destruct (socket_becomes_fields CLOSED i s) as (_ & _ & Hm' & _).
    rewrite Hm in Hm'.
    destruct (onclose_mounted env i wasClean code reason _ Hm') as (-> & -> & ->).
    by rewrite Hc, Hl.
  - unfold retry.
    change (isMountedRef (clearTimeout t s)) with (isMountedRef s). rewrite Hm.
    destruct (connect_quiet env (clearTimeout t s)) as (-> & -> & ->).
    by rewrite app_nil_r.
Qed.

(** X1. On a mounted hook the consumer callbacks fire in the order of the
    events: one per open, error and close event and one per frame from
    which a message can be built, whichever socket the event comes from;
    calls of [connect], [disconnect] and [sendMessage] and retry timers
    fire none.  [lastMessage] is the message of the last such frame, and
    every other event keeps it. *)
Theorem callbacks_follow_events env es : forall s,
  isMountedRef s = true ->
  forallb (fun e => negb (is_unmount e)) es = true ->
  calls (run env s es) = calls s ++ omap callback_of es
  /\ lastMessage (run env s es)
     = match last (omap message_of es) with
       | Some m => Some m
       | None => lastMessage s
       end.
Proof.
  induction es as [|e es IH]; intros s Hm Hu; cbn [run omap].
  - by rewrite app_nil_r.
  - cbn [forallb] in Hu. apply andb_prop in Hu as [He Hu].
    apply negb_true_iff in He.
    destruct (step_mounted env s e Hm He) as (Hm' & Hc & Hl).
    destruct (IH (step env s e) Hm' Hu) as [IHc IHl].
    rewrite IHc, IHl, Hc, Hl. split.
    + rewrite <- app_assoc. f_equal. simpl. by destruct (callback_of e).
    + simpl. destruct (message_of e) as [m|]; [|done].
      rewrite last_cons. by destruct (last _).
Qed.

(** X1 on a connection that receives two plain lines and a log frame. *)
Lemma callbacks_follow_events_witness :
  isMountedRef initial = true
  /\ calls (run (sample_env 3) initial
              [Call_connect; Ev_open 0;
               Ev_message 0 (js "line1") (js "t1");
               Ev_message 0 (jsq "{'type':'log','data':'line2'}") (js "t2");
               Ev_message 0 (js "line3") (js "t3")])
     = [CbOpen 0;
        CbMessage 0 (mkMessage (JString (js "message")) (JString (js "line1"))
                       (JString (js "t1")));
        CbMessage 0 (mkMessage (JString (js "log")) (JString (js "line2"))
                       (JString (js "t2")));
        CbMessage 0 (mkMessage (JString (js "message")) (JString (js "line3"))
                       (JString (js "t3")))].
Proof.
  split; [reflexivity|].
  destruct (callbacks_follow_events (sample_env 3)
              [Call_connect; Ev_open 0;
               Ev_message 0 (js "line1") (js "t1");
               Ev_message 0 (jsq "{'type':'log','data':'line2'}") (js "t2");
               Ev_message 0 (js "line3") (js "t3")]
              initial eq_refl eq_refl) as [H _].
  exact H.
Defined.

(** ** The flags the hook returns *)

Lemma flags_initial : flags_consistent initial.
Proof. split; done. Qed.

Lemma connect_socket_state env s j r :
  socket_state s j = Some r -> socket_state (connect env s) j = Some r.
Proof.
  intros Hj. unfold connect. destruct (_ || _); [done|].
  destruct (WebSocket_accepts env).
  - pose proof (socket_state_new (default [] (url env))
        (setError None (setConnectionStatus Connecting (setIsConnecting true s))) j)
      as E.
    unfold WebSocket_new in *. unfold socket_state in *. cbn in E |- *.
    rewrite E. case_bool_decide as Hl; [|done].
    subst j. by rewrite lookup_ge_None_2 in Hj.
  - by destruct (isMountedRef _).
Qed.

Lemma flags_connect env s :
  flags_consistent s -> flags_consistent (connect env s).
Proof.
  intros [F1 F2 F3 F5].
  assert (G3 : isMountedRef s = true -> isConnected s = true ->
               exists j r, socket_state (connect env s) j = Some r
                           /\ (r = OPEN \/ r = CLOSING)).
  { intros Hm Hc. destruct (F3 Hm Hc) as (j & r & Hj & Hr).
    exists j, r. split; [by apply connect_socket_state | done]. }
  revert G3. unfold connect.
  destruct (url_falsy (url env)); [done|]. cbn [orb].
  destruct (is_CONNECTING (current_readyState s)
            || is_OPEN (current_readyState s)) eqn:Hg; [done|].
  destruct s as [c1 c2 e lm st w rt rc m so ti nt ca].
  destruct (WebSocket_accepts env); [by split|].
  destruct m; by split.
Qed.

Lemma flags_disconnect s : flags_consistent (disconnect s).
Proof. rewrite disconnect_unfold. by split. Qed.

Lemma sendMessage_flags env w m s :
  isConnected (sendMessage env w m s) = isConnected s
  /\ isConnecting (sendMessage env w m s) = isConnecting s
  /\ connectionStatus (sendMessage env w m s) = connectionStatus s
  /\ isMountedRef (sendMessage env w m s) = isMountedRef s
  /\ ws (sendMessage env w m s) = ws s
  /\ (forall j, socket_state (sendMessage env w m s) j = socket_state s j)
  /\ (error (sendMessage env w m s) = error s
      \/ error (sendMessage env w m s) <> None).
Proof.
  unfold sendMessage.
  destruct (current s) as [[i k]|]; [|by repeat split; auto].
  destruct (readyState k); try by repeat split; auto.
  destruct (messageString env m) as [t|]; simpl; [|by repeat split; auto].
  destruct (WebSocket_send w i t s) as [s'|] eqn:Hs; [|by repeat split; auto].
  pose proof (fun j => socket_state_send _ _ _ _ _ j Hs) as Hst.
  unfold WebSocket_send in Hs. destruct w; [done|].
  destruct (sockets s !! i) as [k'|]; [|done].
  destruct (readyState k'); simplify_eq; repeat split; auto.
Qed.

Lemma flags_sendMessage env w m s :
  flags_consistent s -> flags_consistent (sendMessage env w m s).
Proof.
  intros [F1 F2 F3 F5].
  destruct (sendMessage_flags env w m s) as (E1 & E2 & E3 & E4 & E5 & E6 & E7).
  split; rewrite ?E1, ?E2, ?E3, ?E4; try done.
  - intros Hm Hc. destruct (F3 Hm Hc) as (j & r & Hj & Hr).
    exists j, r. by rewrite E6.
  - intros Hs. destruct E7 as [->|E7]; auto.
Qed.

Lemma flags_onmessage i raw now s :
  flags_consistent s -> flags_consistent (onmessage i raw now s).
Proof.
  intros F. unfold onmessage.
  destruct (isMountedRef s); cbn [negb]; [|done].
  destruct (build_message raw now) as [msg|]; [|done].
  destruct F as [F1 F2 F3 F5].
  destruct s as [c1 c2 e lm st w rt rc m so ti nt ca]. by split.
Qed.

Lemma flags_onerror i s : flags_consistent s -> flags_consistent (onerror i s).
Proof.
  intros F. unfold onerror.
  destruct (isMountedRef s); cbn [negb]; [|done].
  destruct F as [F1 F2 F3 F5].
  destruct s as [c1 c2 e lm st w rt rc m so ti nt ca]. by split.
Qed.

Lemma socket_becomes_flags r i s :
  isConnected (socket_becomes r i s) = isConnected s
  /\ isConnecting (socket_becomes r i s) = isConnecting s
  /\ error (socket_becomes r i s) = error s.
Proof. unfold socket_becomes. by destruct (sockets s !! i). Qed.

Lemma flags_open i s :
  flags_consistent s -> socket_state s i = Some CONNECTING ->
  flags_consistent (onopen i (socket_becomes OPEN i s)).
Proof.
  intros [F1 F2 F3 F5] Hi.
  destruct (socket_becomes_fields OPEN i s) as (Ew & Es & Em & _).
  destruct (socket_becomes_flags OPEN i s) as (Ec & Eg & Ee).
  assert (Hopen : socket_state (socket_becomes OPEN i s) i = Some OPEN).
  { by rewrite socket_state_becomes, bool_decide_eq_true_2, Hi. }
  unfold onopen. rewrite Em.
  destruct (isMountedRef s) eqn:Hm; cbn [negb].
  - split; cbn [isConnecting isConnected connectionStatus isMountedRef fire
                set_reconnectCountRef setError setConnectionStatus
                setIsConnecting setIsConnected]; try done.
    intros _ _. exists i, OPEN. split; [exact Hopen | by left].
  - split; rewrite ?Ec, ?Eg, ?Es, ?Em, ?Ee; done.
Qed.

Lemma flags_closing i s :
  flags_consistent s -> flags_consistent (socket_becomes CLOSING i s).
Proof.
  intros [F1 F2 F3 F5].
  destruct (socket_becomes_fields CLOSING i s) as (Ew & Es & Em & _).
  destruct (socket_becomes_flags CLOSING i s) as (Ec & Eg & Ee).
  split; rewrite ?Ec, ?Eg, ?Es, ?Em, ?Ee; try done.
  intros Hm Hc. destruct (F3 Hm Hc) as (j & r & Hj & Hr).
  exists j. rewrite socket_state_becomes. case_bool_decide as Hij.
  - subst j. rewrite Hj. exists CLOSING. by auto.
  - by exists r.
Qed.

Lemma flags_close env i wasClean code reason s :
  flags_consistent s ->
  flags_consistent (onclose env i wasClean code reason (socket_becomes CLOSED i s)).
Proof.
  intros [F1 F2 F3 F5].
  destruct (socket_becomes_fields CLOSED i s) as (Ew & Es & Em & _).
  destruct (socket_becomes_flags CLOSED i s) as (Ec & Eg & Ee).
  unfold onclose. rewrite Em.
  destruct (isMountedRef s) eqn:Hm; cbn [negb].
  - destruct (socket_becomes CLOSED i s) as [c1 c2 e lm st w rt rc m so ti nt ca].
    hook_unfold.
    destruct wasClean; cbn [negb andb]; [by split|].
    destruct (_ <? _)%Z; by split.
  - split; rewrite ?Ec, ?Eg, ?Es, ?Em, ?Ee; done.
Qed.

Lemma flags_unmount s : flags_consistent s -> flags_consistent (unmount s).
Proof. intros [F1 F2 F3 F5]. rewrite unmount_unfold. by split. Qed.

Lemma flags_step env s e :
  flags_consistent s -> enabled s e = true ->
  flags_consistent (step env s e).
Proof.
  intros F He. destruct e; [cbn [step]..|rewrite step_unmount].
  - by apply flags_connect.
  - apply flags_disconnect.
  - by apply flags_sendMessage.
  - apply flags_open; [done|].
    cbn in He. destruct (socket_state s i) as [[]|]; done.
  - by apply flags_onmessage.
  - by apply flags_onerror.
  - by apply flags_closing.
  - by apply flags_close.
  - unfold retry.
    change (isMountedRef (clearTimeout t s)) with (isMountedRef s).
    assert (F' : flags_consistent (clearTimeout t s)) by by destruct F.
    destruct (isMountedRef s); [by apply flags_connect | done].
  - by apply flags_unmount.
Qed.

Lemma reachable_flags env s : reachable env s -> flags_consistent s.
Proof.
  induction 1 as [|s e Hr IH He]; [apply flags_initial|].
  by apply flags_step.
Qed.

(** X2. In every state the hook can reach: [isConnecting] is true exactly
    when the status is [connecting]; the status [connected] comes with
    [isConnected] and a retry counter of 0; on a mounted hook the status
    [connected] means that the socket the hook holds is open, or closing
    because the server has started the closing handshake, and
    [isConnected] means that some socket of the hook is open or closing
    with its close event still to come; and the status [error] always
    comes with an error text.  A teardown leaves [isMountedRef] false and
    the flags as they were at the last render. *)
Theorem returned_flags_agree env s :
  reachable env s ->
  (isConnecting s = true <-> connectionStatus s = Connecting)
  /\ (connectionStatus s = Connected ->
      isConnected s = true /\ reconnectCountRef s = 0%Z)
  /\ (isMountedRef s = true -> connectionStatus s = Connected ->
      exists i k, ws s = Some i /\ sockets s !! i = Some k
                  /\ (readyState k = OPEN \/ readyState k = CLOSING))
  /\ (isMountedRef s = true -> isConnected s = true ->
      exists j k, sockets s !! j = Some k
                  /\ (readyState k = OPEN \/ readyState k = CLOSING))
  /\ (connectionStatus s = Error -> error s <> None)
  /\ (isMountedRef (unmount s) = false
      /\ isConnected (unmount s) = isConnected s
      /\ isConnecting (unmount s) = isConnecting s
      /\ connectionStatus (unmount s) = connectionStatus s
      /\ error (unmount s) = error s).
Proof.
  intros Hr.
  destruct (reachable_flags env s Hr) as [F1 F2 F3 F5].
  pose proof (reachable_consistent env s Hr) as Hc.
  split; [done|]. split; [|split; [|split; [|split; [done|]]]].
  - intros H. split; [by apply F2 | by apply (connected_counter_zero s Hc)].
  - intros Hm H.
    assert (Ho : exists r, current_readyState s = Some r /\ (r = OPEN \/ r = CLOSING)).
    { destruct (connected_not_closed s Hc Hm H) as [->| ->]; eauto. }
    destruct Ho as (r & Ho & Hr'). unfold current_readyState, current in Ho.
    destruct (ws s) as [i|]; simpl in Ho; [|done].
    destruct (sockets s !! i) as [k|] eqn:Hk; simpl in Ho; [|done].
    injection Ho as <-. by exists i, k.
  - intros Hm H. destruct (F3 Hm H) as (j & r & Hj & Hr').
    unfold socket_state in Hj.
    destruct (sockets s !! j) as [k|] eqn:Hk; simpl in Hj; [|done].
    injection Hj as <-. by exists j, k.
  - by rewrite unmount_unfold.
Qed.

(** X2 after a retried connection has dropped again. *)
Lemma returned_flags_agree_witness :
  reachable (sample_env 3) (run (sample_env 3) initial retries_used_up)
  /\ connectionStatus (run (sample_env 3) initial retries_used_up) = Error
  /\ error (run (sample_env 3) initial retries_used_up) <> None.
Proof.
  assert (Hr : reachable (sample_env 3) (run (sample_env 3) initial retries_used_up))
    by (apply run_reachable; [constructor | reflexivity]).
  split; [exact Hr|]. split; [reflexivity|].
  destruct (returned_flags_agree (sample_env 3) _ Hr) as (_ & _ & _ & H).
  apply H. reflexivity.
Defined.

(** ** Retry timers *)

Lemma connect_timers env s :
  timers (connect env s) = timers s
  /\ reconnectTimeoutRef (connect env s) = reconnectTimeoutRef s.
Proof.
  unfold connect. destruct (_ || _); [done|].
  destruct s as [c1 c2 e lm st w rt rc m so ti nt ca].
  destruct (WebSocket_accepts env); [done|]. by destruct m.
Qed.

Lemma sendMessage_timers env w m s :
  timers (sendMessage env w m s) = timers s.
Proof.
  unfold sendMessage.
  destruct (current s) as [[i k]|]; [|done].
  destruct (readyState k); try done.
  destruct (messageString env m) as [t|]; simpl; [|done].
  unfold WebSocket_send. destruct w; [done|].
  destruct (sockets s !! i) as [k'|]; [|done].
  by destruct (readyState k').
Qed.

Lemma socket_becomes_timers r i s :
  timers (socket_becomes r i s) = timers s
  /\ nextTimer (socket_becomes r i s) = nextTimer s.
Proof. unfold socket_becomes. by destruct (sockets s !! i). Qed.

Lemma disconnect_timers s t : t ∈ timers (disconnect s) -> t ∈ timers s.
Proof.
  rewrite disconnect_unfold. cbn [timers].
  destruct (reconnectTimeoutRef s); [|done].
  by intros [H _]%elem_of_difference.
Qed.

Lemma unmount_timers s t : t ∈ timers (unmount s) -> t ∈ timers s.
Proof.
  rewrite unmount_unfold. cbn [timers]. apply disconnect_timers.
Qed.

Lemma onopen_timers i s : timers (onopen i s) = timers s.
Proof. unfold onopen. by destruct (isMountedRef s). Qed.

Lemma onmessage_timers i raw now s : timers (onmessage i raw now s) = timers s.
Proof.
  unfold onmessage. destruct (isMountedRef s); [|done].
  by destruct (build_message raw now).
Qed.

Lemma onerror_timers i s : timers (onerror i s) = timers s.
Proof. unfold onerror. by destruct (isMountedRef s). Qed.

Lemma onclose_timers env i wasClean code reason s :
  (timers (onclose env i wasClean code reason s) = timers s)
  \/ (isMountedRef s = true /\ wasClean = false
      /\ (reconnectCountRef s < reconnectAttempts env)%Z
      /\ timers (onclose env i wasClean code reason s) = {[nextTimer s]} ∪ timers s
      /\ reconnectTimeoutRef (onclose env i wasClean code reason s)
         = Some (nextTimer s)
      /\ reconnectCountRef (onclose env i wasClean code reason s)
         = (reconnectCountRef s + 1)%Z).
Proof.
  unfold onclose. destruct s as [c1 c2 e lm st w rt rc m so ti nt ca].
  hook_unfold. destruct m; cbn [negb]; [|by left].
  destruct wasClean; cbn [negb andb]; [by left|].
  destruct (rc <? reconnectAttempts env)%Z eqn:Hlt; [|by left].
  right. apply Z.ltb_lt in Hlt. done.
Qed.

Lemma retry_timers env t0 s t :
  t ∈ timers (retry env (clearTimeout t0 s)) -> t ∈ timers s.
Proof.
  unfold retry.
  destruct (isMountedRef (clearTimeout t0 s)).
  - destruct (connect_timers env (clearTimeout t0 s)) as [-> _].
    unfold clearTimeout, set_timers. cbn [timers].
    by intros [H _]%elem_of_difference.
  - unfold clearTimeout, set_timers. cbn [timers].
    by intros [H _]%elem_of_difference.
Qed.

(** X4. A retry timer is only ever created by the close handler: if a
    timer is pending after an event and was not pending before it, the
    event is an abnormal close on a mounted hook whose retry counter is
    below [reconnectAttempts]; the timer is the one [reconnectTimeoutRef]
    then holds, and the counter has gone up by one. *)
Theorem retry_only_after_abnormal_close env s e t :
  t ∈ timers (step env s e) -> t ∉ timers s ->
  isMountedRef s = true
  /\ (exists i code reason, e = Ev_close i false code reason)
  /\ (reconnectCountRef s < reconnectAttempts env)%Z
  /\ t = nextTimer s
  /\ reconnectTimeoutRef (step env s e) = Some t
  /\ reconnectCountRef (step env s e) = (reconnectCountRef s + 1)%Z.
Proof.
  intros Hin Hnot. destruct e; [cbn [step] in Hin..|rewrite step_unmount in Hin].
  - destruct (connect_timers env s) as [E _]. by rewrite E in Hin.
  - by apply disconnect_timers in Hin.
  - by rewrite sendMessage_timers in Hin.
  - destruct (socket_becomes_timers OPEN i s) as [E _].
    by rewrite onopen_timers, E in Hin.
  - by rewrite onmessage_timers in Hin.
  - by rewrite onerror_timers in Hin.
  - destruct (socket_becomes_timers CLOSING i s) as [E _]. by rewrite E in Hin.
  - destruct (socket_becomes_timers CLOSED i s) as [E En].
    destruct (socket_becomes_fields CLOSED i s) as (_ & _ & Em & Ec).
    destruct (onclose_timers env i wasClean code reason (socket_becomes CLOSED i s))
      as [Et|(Hm & -> & Hlt & Et & Er & Ecnt)]; rewrite Et, ?E in Hin; [done|].
    rewrite Em in Hm. rewrite Ec in Hlt. rewrite En in Et, Er, Hin.
    rewrite Ec in Ecnt.
    apply elem_of_union in Hin as [Hin|Hin]; [|done].
    apply elem_of_singleton in Hin. subst t.
    split; [exact Hm|]. split; [by exists i, code, reason|].
    split; [exact Hlt|]. split; [reflexivity|]. split; [exact Er | exact Ecnt].
  - by apply retry_timers in Hin.
  - by apply unmount_timers in Hin.
Qed.

(** X4 at the abnormal close of an open connection. *)
Lemma retry_only_after_abnormal_close_witness :
  (1 ∈ timers (step (sample_env 3)
                 (run (sample_env 3) initial [Call_connect; Ev_open 0])
                 (Ev_close 0 false 1006 [])))
  /\ (1 ∉ timers (run (sample_env 3) initial [Call_connect; Ev_open 0]))
  /\ reconnectTimeoutRef
       (step (sample_env 3) (run (sample_env 3) initial [Call_connect; Ev_open 0])
          (Ev_close 0 false 1006 [])) = Some 1.
Proof.
  assert (H1 : 1 ∈ timers (step (sample_env 3)
                            (run (sample_env 3) initial [Call_connect; Ev_open 0])
                            (Ev_close 0 false 1006 [])))
    by (apply (bool_decide_unpack _); vm_compute; exact I).
  assert (H2 : 1 ∉ timers (run (sample_env 3) initial [Call_connect; Ev_open 0]))
    by (apply (bool_decide_unpack _); vm_compute; exact I).
  split; [exact H1|]. split; [exact H2|].
  apply (retry_only_after_abnormal_close (sample_env 3) _ _ 1 H1 H2).
Defined.

(** ** One reconnection *)

(** X5. One reconnection.  From a connected hook with at least one retry
    allowed, an abnormal close of its socket leads to the status [error]
    with the text [Connection lost unexpectedly] and a counter of 1; the
    timer set by the handler can fire, and [connect] then opens a new
    socket to the same target, in status [connecting]; when that socket
    opens the hook is [connected] again, with the error cleared and the
    counter back to 0.  The consumer has seen [onClose] and then
    [onOpen]. *)
Theorem reconnect_cycle env s i code reason u :
  reachable env s -> connectionStatus s = Connected -> ws s = Some i ->
  url env = Some u -> u <> [] -> WebSocket_accepts env = true ->
  (0 < reconnectAttempts env)%Z ->
  let t := nextTimer s in
  let j := length (sockets s) in
  let s1 := step env s (Ev_close i false code reason) in
  let s2 := step env s1 (Ev_timer t) in
  let s3 := step env s2 (Ev_open j) in
  (enabled s (Ev_close i false code reason) = true
   /\ connectionStatus s1 = Error
   /\ error s1 = Some "Connection lost unexpectedly"%string
   /\ reconnectCountRef s1 = 1%Z)
  /\ (enabled s1 (Ev_timer t) = true
      /\ connectionStatus s2 = Connecting
      /\ ws s2 = Some j
      /\ sockets s2 !! j = Some (mkSocket u CONNECTING [] None)
      /\ reconnectCountRef s2 = 1%Z)
  /\ (enabled s2 (Ev_open j) = true
      /\ connectionStatus s3 = Connected
      /\ isConnected s3 = true
      /\ error s3 = None
      /\ reconnectCountRef s3 = 0%Z
      /\ calls s3 = calls s ++ [CbClose i false code reason; CbOpen j]).
Proof.
  intros Hr Hst Hw Hu Hne Ha Hat.
  pose proof (reachable_consistent env s Hr) as Hc.
  pose proof (connected_counter_zero s Hc Hst) as Hcnt.
  assert (Hm : isMountedRef s = true).
  { destruct (isMountedRef s) eqn:E; [done|].
    by rewrite (unmounted_connected_idle s Hc E Hst) in Hw. }
  assert (Hop : exists r, current_readyState s = Some r /\ (r = OPEN \/ r = CLOSING)).
  { destruct (connected_not_closed s Hc Hm Hst) as [->| ->]; eauto. }
  destruct Hop as (r & Hop & Hr').
  unfold current_readyState, current in Hop. rewrite Hw in Hop.
  cbn [mbind option_bind] in Hop.
  destruct (sockets s !! i) as [k|] eqn:Hk; [|done].
  cbn [mbind option_bind fmap option_fmap option_map compose snd] in Hop.
  assert (Hko : readyState k = OPEN \/ readyState k = CLOSING) by by simplify_eq.
  assert (Hlt : i < length (sockets s)) by by eapply lookup_lt_Some.
  assert (Hf : url_falsy (Some u) = false) by by destruct u.
  clear Hc Hr Hop Hr' r.
  destruct s as [c1 c2 e lm st w rt rc m so ti nt ca].
  cbn [connectionStatus ws isMountedRef reconnectCountRef sockets nextTimer calls] in *.
  subst st w m rc. cbv zeta.
  cbn [step]. unfold socket_becomes. cbn [sockets]. rewrite Hk.
  unfold onclose. hook_unfold. cbn [negb andb].
  apply Z.ltb_lt in Hat. rewrite Hat. unfold setTimeout. hook_unfold.
  split.
  { unfold enabled, socket_state. cbn [sockets]. rewrite Hk. cbn.
    by destruct Hko as [->| ->]. }
  unfold retry. hook_unfold.
  unfold connect. rewrite Hu, Ha, Hf.
  unfold current_readyState, current. hook_unfold.
  cbn [mbind option_bind].
  rewrite list_lookup_insert_eq by done.
  cbn [mbind option_bind fmap option_fmap option_map compose snd readyState
       set_readyState is_CONNECTING is_OPEN orb].
  unfold WebSocket_new. hook_unfold. cbn [default from_option id].
  rewrite length_insert.
  assert (Hj : (<[i:=set_readyState CLOSED k]> so ++ [mkSocket u CONNECTING [] None])
               !! length so = Some (mkSocket u CONNECTING [] None)).
  { rewrite lookup_app_r by (rewrite length_insert; lia).
    by rewrite length_insert, Nat.sub_diag. }
  split.
  { split; [|by rewrite Hj].
    unfold enabled. hook_unfold. apply bool_decide_eq_true_2.
    apply elem_of_union_l, elem_of_singleton. done. }
  rewrite Hj. unfold onopen. hook_unfold. cbn [negb].
  split; [|by rewrite <- app_assoc].
  unfold enabled, socket_state. hook_unfold.
  rewrite Hj. done.
Qed.

(** X5 at a connected hook. *)
Lemma reconnect_cycle_witness :
  reachable (sample_env 3) (run (sample_env 3) initial [Call_connect; Ev_open 0])
  /\ connectionStatus (run (sample_env 3) initial [Call_connect; Ev_open 0]) = Connected
  /\ reconnectCountRef
       (step (sample_env 3) (run (sample_env 3) initial [Call_connect; Ev_open 0])
          (Ev_close 0 false 1006 [])) = 1%Z.
Proof.
  assert (Hr : reachable (sample_env 3)
                 (run (sample_env 3) initial [Call_connect; Ev_open 0]))
    by (apply run_reachable; [constructor | reflexivity]).
  split; [exact Hr|]. split; [reflexivity|].
  pose proof (reconnect_cycle (sample_env 3)
                (run (sample_env 3) initial [Call_connect; Ev_open 0])
                0 1006 [] (js "ws://host/logs/abc123")
                Hr eq_refl eq_refl eq_refl) as H.
  apply H; [discriminate | reflexivity | reflexivity].
Defined.

(** ** Letting go of transports *)

Lemma open_transports_zero s :
  (forall j r, socket_state s j = Some r -> live r = false) ->
  open_transports s = 0.
Proof.
  intros H. unfold open_transports.
  destruct (filter _ (sockets s)) as [|k l] eqn:Hf; [done|].
  assert (Hin : k ∈ filter (fun k => live (readyState k) = true) (sockets s))
    by (rewrite Hf; apply list_elem_of_here).
  apply list_elem_of_filter in Hin as [Hk Hin].
  apply list_elem_of_lookup in Hin as [j Hj].
  specialize (H j (readyState k)). unfold socket_state in H.
  rewrite Hj in H. by rewrite H in Hk.
Qed.

Lemma socket_state_disconnect_other s j :
  ws s <> Some j -> socket_state (disconnect s) j = socket_state s j.
Proof.
  intros Hw. rewrite disconnect_unfold. unfold socket_state at 1.
  cbn [sockets]. destruct (ws s) as [i|]; [|done].
  pose proof (socket_state_close i (Some 1000%Z)
                (Some (js "Intentional disconnect")) s j) as E.
  unfold socket_state at 1 in E. rewrite E.
  rewrite bool_decide_eq_false_2; [done|congruence].
Qed.

Lemma disconnect_no_live s :
  (forall i r, socket_state s i = Some r -> live r = true -> ws s = Some i) ->
  forall j r, socket_state (disconnect s) j = Some r -> live r = false.
Proof.
  intros Hc j r Hj. destruct (live r) eqn:Hl; [|done].
  destruct (decide (ws s = Some j)) as [Hw|Hw].
  - rewrite (socket_state_disconnect s j Hw) in Hj.
    destruct (socket_state s j) as [r0|]; simpl in Hj; [|done].
    injection Hj as <-. by destruct (live r0) eqn:E; [|rewrite E in Hl].
  - rewrite (socket_state_disconnect_other s j Hw) in Hj.
    by specialize (Hc j r Hj Hl).
Qed.

(** X6. After [disconnect()], after the cleanup of the auto-connect effect
    and after the teardown of the component, no socket of the hook is
    open or opening. *)
Theorem teardown_releases_transports env s :
  reachable env s ->
  open_transports (disconnect s) = 0
  /\ open_transports (autoConnect_cleanup s) = 0
  /\ open_transports (unmount s) = 0.
Proof.
  intros Hr. pose proof (reachable_consistent env s Hr) as Hc.
  pose proof (only_current_live s Hc) as Hl.
  assert (H1 : open_transports (disconnect s) = 0)
    by by apply open_transports_zero, disconnect_no_live.
  assert (H2 : open_transports (autoConnect_cleanup s) = 0)
    by by apply open_transports_zero, disconnect_no_live.
  split; [done|]. split; [done|].
  unfold open_transports in *. rewrite unmount_unfold. cbn [sockets]. exact H1.
Qed.

(** X6 at a connected hook. *)
Lemma teardown_releases_transports_witness :
  reachable (sample_env 3) (run (sample_env 3) initial [Call_connect; Ev_open 0])
  /\ open_transports (run (sample_env 3) initial [Call_connect; Ev_open 0]) = 1
  /\ open_transports
       (unmount (run (sample_env 3) initial [Call_connect; Ev_open 0])) = 0.
Proof.
  assert (Hr : reachable (sample_env 3)
                 (run (sample_env 3) initial [Call_connect; Ev_open 0]))
    by (apply run_reachable; [constructor | reflexivity]).
  split; [exact Hr|]. split; [reflexivity|].
  apply (teardown_releases_transports (sample_env 3) _ Hr).
Defined.

(** ** [disconnect] followed by [connect] *)

Lemma disconnect_sockets_length s :
  length (sockets (disconnect s)) = length (sockets s).
Proof.
  rewrite disconnect_unfold. cbn [sockets].
  destruct (ws s) as [i|]; [|done]. unfold WebSocket_close.
  destruct (sockets s !! i) as [k|]; [|done].
  destruct (readyState k); cbn [sockets set_sockets]; by rewrite ?length_insert.
Qed.

(** X7. From any state, [disconnect()] followed by [connect()] to an
    accepted target opens a fresh socket to that target: the hook holds
    the new socket, which is connecting and has sent nothing, the status
    is [connecting] with no error, the retry counter is 0, and no callback
    has fired. *)
Theorem connect_after_disconnect env s u :
  url env = Some u -> u <> [] -> WebSocket_accepts env = true ->
  ws (connect env (disconnect s)) = Some (length (sockets s))
  /\ sockets (connect env (disconnect s)) !! length (sockets s)
     = Some (mkSocket u CONNECTING [] None)
  /\ isConnecting (connect env (disconnect s)) = true
  /\ isConnected (connect env (disconnect s)) = false
  /\ connectionStatus (connect env (disconnect s)) = Connecting
  /\ error (connect env (disconnect s)) = None
  /\ reconnectCountRef (connect env (disconnect s)) = 0%Z
  /\ calls (connect env (disconnect s)) = calls s.
Proof.
  intros Hu Hne Ha.
  pose proof (disconnect_sockets_length s) as Hlen.
  set (n := length (sockets s)) in *. clearbody n.
  revert Hlen. rewrite disconnect_unfold.
  set (so := match ws s with Some i => _ | None => _ end).
  set (ti := match reconnectTimeoutRef s with Some t => _ | None => _ end).
  cbn [sockets]. intros Hlen.
  unfold connect. rewrite Hu, Ha.
  assert (Hf : url_falsy (Some u) = false) by by destruct u.
  rewrite Hf. unfold current_readyState, current. cbn [ws mbind option_bind fmap option_fmap option_map orb is_CONNECTING is_OPEN].
  unfold WebSocket_new. hook_unfold. cbn [default].
  rewrite Hlen. repeat split.
  by rewrite <- Hlen, lookup_app_r, Nat.sub_diag by lia.
Qed.

(** X7 at a connected hook. *)
Lemma connect_after_disconnect_witness :
  url (sample_env 3) = Some (js "ws://host/logs/abc123")
  /\ connectionStatus
       (connect (sample_env 3)
          (disconnect (run (sample_env 3) initial [Call_connect; Ev_open 0])))
     = Connecting.
Proof.
  split; [reflexivity|].
  apply (connect_after_disconnect (sample_env 3)
           (run (sample_env 3) initial [Call_connect; Ev_open 0])
           (js "ws://host/logs/abc123")); [reflexivity|discriminate|reflexivity].
Defined.

(** ** After the cleanup of the auto-connect effect *)







(** The container page: the hook is mounted without a target, a container
    is selected (the target changes, so the effect runs again), streaming
    is started, the socket opens and a log line arrives. *)
Example stream_after_selection :
  let s := run (sample_env 3) (effect_rerun (sample_env 3) false initial)
             [Call_connect; Ev_open 0; Ev_message 0 (js "line1") (js "now")] in
  feasible (sample_env 3) (effect_rerun (sample_env 3) false initial)
    [Call_connect; Ev_open 0; Ev_message 0 (js "line1") (js "now")] = true
  /\ socket_state s 0 = Some OPEN
  /\ connectionStatus s = Connecting
  /\ isConnected s = false
  /\ lastMessage s = None
  /\ calls s = [].
Proof. by vm_compute. Qed.

(** ** What goes out on a socket *)

Lemma same_traffic_refl l : same_traffic l l.
Proof. intros i k Hi. by exists k. Qed.

Lemma same_traffic_insert l j kj k1 :
  l !! j = Some kj -> sock_url k1 = sock_url kj -> sent k1 = sent kj ->
  same_traffic l (<[j := k1]> l).
Proof.
  intros Hj Hu Hs i k Hi. destruct (decide (j = i)) as [->|Hne].
  - exists k1. rewrite list_lookup_insert_eq by by eapply lookup_lt_Some.
    by simplify_eq.
  - exists k. by rewrite list_lookup_insert_ne.
Qed.

Lemma same_traffic_close i code reason s :
  same_traffic (sockets s) (sockets (WebSocket_close i code reason s)).
Proof.
  unfold WebSocket_close. destruct (sockets s !! i) as [k|] eqn:Hi;
    [|apply same_traffic_refl].
  destruct (readyState k); cbn [sockets set_sockets];
    first [apply same_traffic_refl | by eapply same_traffic_insert].
Qed.

Lemma same_traffic_becomes r i s :
  same_traffic (sockets s) (sockets (socket_becomes r i s)).
Proof.
  unfold socket_becomes. destruct (sockets s !! i) as [k|] eqn:Hi;
    [|apply same_traffic_refl].
  cbn [sockets set_sockets]. by eapply same_traffic_insert.
Qed.

Lemma same_traffic_connect env s :
  same_traffic (sockets s) (sockets (connect env s)).
Proof.
  unfold connect. destruct (_ || _); [apply same_traffic_refl|].
  destruct s as [c1 c2 e lm st w rt rc m so ti nt ca].
  destruct (WebSocket_accepts env).
  - unfold WebSocket_new. hook_unfold. intros i k Hi. exists k.
    by rewrite lookup_app_l by by eapply lookup_lt_Some.
  - destruct m; apply same_traffic_refl.
Qed.

Lemma same_traffic_disconnect s :
  same_traffic (sockets s) (sockets (disconnect s)).
Proof.
  rewrite disconnect_unfold. cbn [sockets].
  destruct (ws s); [apply same_traffic_close | apply same_traffic_refl].
Qed.

Lemma onopen_sockets i s : sockets (onopen i s) = sockets s.
Proof. unfold onopen. by destruct (isMountedRef s). Qed.

Lemma onmessage_sockets i raw now s : sockets (onmessage i raw now s) = sockets s.
Proof.
  unfold onmessage. destruct (isMountedRef s); [|done].
  by destruct (build_message raw now).
Qed.

Lemma onerror_sockets i s : sockets (onerror i s) = sockets s.
Proof. unfold onerror. by destruct (isMountedRef s). Qed.

Lemma onclose_sockets env i wasClean code reason s :
  sockets (onclose env i wasClean code reason s) = sockets s.
Proof.
  unfold onclose. destruct s as [c1 c2 e lm st w rt rc m so ti nt ca].
  hook_unfold. destruct m; cbn [negb]; [|done].
  destruct wasClean; cbn [negb andb]; [done|].
  by destruct (rc <? reconnectAttempts env)%Z.
Qed.

Lemma sendMessage_sockets env w m s :
  sockets (sendMessage env w m s) = sockets s
  \/ exists i k t, w = false /\ ws s = Some i /\ sockets s !! i = Some k
       /\ readyState k = OPEN /\ messageString env m = Some t
       /\ sockets (sendMessage env w m s)
          = <[i := mkSocket (sock_url k) OPEN (sent k ++ [t]) (closing k)]> (sockets s).
Proof.
  unfold sendMessage, current.
  destruct (ws s) as [i|] eqn:Hw; cbn [mbind option_bind]; [|by left].
  destruct (sockets s !! i) as [k|] eqn:Hi; cbn [mbind option_bind]; [|by left].
  destruct (readyState k) eqn:Hr; try by left.
  destruct (messageString env m) as [t|] eqn:Ht; cbn [mbind option_bind]; [|by left].
  unfold WebSocket_send. destruct w; [by left|].
  rewrite Hi, Hr. right. by exists i, k, t.
Qed.

(** X10. Nothing but [sendMessage] writes to a socket: over every event a
    socket stays in its place with its target and the texts it has sent,
    except that a [sendMessage] whose write does not throw adds its one
    text to the socket the hook holds, and only if that socket is open. *)
Theorem only_sendMessage_writes env s e i k :
  sockets s !! i = Some k ->
  exists k', sockets (step env s e) !! i = Some k'
    /\ sock_url k' = sock_url k
    /\ (sent k' = sent k
        \/ exists m t, e = Call_sendMessage m false /\ ws s = Some i
             /\ readyState k = OPEN /\ messageString env m = Some t
             /\ sent k' = sent k ++ [t]).
Proof.
  intros Hi.
  assert (K : forall l', same_traffic (sockets s) l' ->
            exists k', l' !! i = Some k' /\ sock_url k' = sock_url k
              /\ (sent k' = sent k
                  \/ exists m t, e = Call_sendMessage m false /\ ws s = Some i
                       /\ readyState k = OPEN /\ messageString env m = Some t
                       /\ sent k' = sent k ++ [t])).
  { intros l' H. destruct (H i k Hi) as (k' & ? & ? & ?). exists k'. auto. }
  destruct e; [cbn [step]..|rewrite step_unmount].
  - apply K, same_traffic_connect.
  - apply K, same_traffic_disconnect.
  - destruct (sendMessage_sockets env write_throws message s)
      as [->|(j & kj & t & -> & Hw & Hj & Hr & Ht & ->)];
      [apply K, same_traffic_refl|].
    destruct (decide (j = i)) as [->|Hne].
    + rewrite list_lookup_insert_eq by by eapply lookup_lt_Some.
      assert (kj = k) as -> by congruence.
      eexists. split; [done|]. split; [done|]. right. by exists message, t.
    + rewrite list_lookup_insert_ne by done. exists k. auto.
  - rewrite onopen_sockets. apply K, same_traffic_becomes.
  - rewrite onmessage_sockets. apply K, same_traffic_refl.
  - rewrite onerror_sockets. apply K, same_traffic_refl.
  - apply K, same_traffic_becomes.
  - rewrite onclose_sockets. apply K, same_traffic_becomes.
  - unfold retry. change (isMountedRef (clearTimeout t s)) with (isMountedRef s).
    destruct (isMountedRef s); [|apply K, same_traffic_refl].
    apply K. apply (same_traffic_connect env (clearTimeout t s)).
  - rewrite unmount_unfold. cbn [sockets]. apply K, same_traffic_disconnect.
Qed.

(** X10 at the abnormal close of an open connection that has sent
    nothing. *)
Lemma only_sendMessage_writes_witness :
  sockets (run (sample_env 3) initial [Call_connect; Ev_open 0]) !! 0
  = Some (mkSocket (js "ws://host/logs/abc123") OPEN [] None)
  /\ exists k',
       sockets (step (sample_env 3)
                  (run (sample_env 3) initial [Call_connect; Ev_open 0])
                  (Ev_close 0 false 1006 [])) !! 0 = Some k'
       /\ sent k' = [].
Proof.
  split; [reflexivity|].
  destruct (only_sendMessage_writes (sample_env 3)
              (run (sample_env 3) initial [Call_connect; Ev_open 0])
              (Ev_close 0 false 1006 []) 0
              (mkSocket (js "ws://host/logs/abc123") OPEN [] None) eq_refl)
    as (k' & Hk & _ & [Hs|(m & t & He & _)]).
  - by exists k'.
  - discriminate He.
Defined.

(** ** The address of the log stream *)

Lemma starts_with_spec p s : starts_with p s = true <-> exists r, s = p ++ r.
Proof.
  revert s. induction p as [|a p IH]; intros s; simpl.
  - split; [by exists s | done].
  - destruct s as [|b s]; [split; [done | by intros [r ?]]|].
    rewrite andb_true_iff, N.eqb_eq, IH. split.
    + intros [-> [r ->]]. by exists r.
    + intros [r [= -> ->]]. split; [done | by exists r].
Qed.

Lemma String_replace_eq pat rep s :
  String_replace pat rep s
  = if starts_with pat s then rep ++ drop (length pat) s
    else match s with
         | [] => []
         | c :: s' => c :: String_replace pat rep s'
         end.
Proof. by destruct s. Qed.

Lemma String_replace_here pat rep r :
  String_replace pat rep (pat ++ r) = rep ++ r.
Proof.
  rewrite String_replace_eq.
  assert (H : starts_with pat (pat ++ r) = true) by (apply starts_with_spec; eauto).
  by rewrite H, drop_app_length.
Qed.

(** X11. [s.replace(pat, rep)] replaces the leftmost occurrence of [pat]
    and leaves the rest of the string as it is; a string without an
    occurrence is returned unchanged. *)
Theorem String_replace_leftmost pat rep s :
  (forall a b,
     s = a ++ pat ++ b ->
     (forall a' b', s = a' ++ pat ++ b' -> length a <= length a') ->
     String_replace pat rep s = a ++ rep ++ b)
  /\ ((forall a b, s <> a ++ pat ++ b) -> String_replace pat rep s = s).
Proof.
  split.
  - intros a. revert s. induction a as [|c a IH]; intros s b -> Hmin.
    + exact (String_replace_here pat rep b).
    + rewrite String_replace_eq.
      destruct (starts_with pat ((c :: a) ++ pat ++ b)) eqn:Hs.
      * apply starts_with_spec in Hs as [r Hr].
        specialize (Hmin [] r Hr). simpl in Hmin. lia.
      * simpl. f_equal. apply IH; [done|].
        intros a' b' E. specialize (Hmin (c :: a') b').
        simpl in Hmin. rewrite E in Hmin. specialize (Hmin eq_refl). lia.
  - induction s as [|c s IH]; intros Hno; rewrite String_replace_eq.
    + destruct (starts_with pat []) eqn:Hs; [|done].
      apply starts_with_spec in Hs as [r Hr]. by destruct (Hno [] r).
    + destruct (starts_with pat (c :: s)) eqn:Hs.
      * apply starts_with_spec in Hs as [r Hr]. by destruct (Hno [] r).
      * f_equal. apply IH. intros a b ->. by apply (Hno (c :: a) b).
Qed.

(** X11 on an address with the pattern inside the host name and again in
    the path. *)
Lemma String_replace_leftmost_witness :
  String_replace (js "http") (js "ws") (js "//myhttp.example/http")
  = js "//my" ++ js "ws" ++ js ".example/http".
Proof.
  destruct (String_replace_leftmost (js "http") (js "ws")
              (js "//myhttp.example/http")) as [H _].
  apply (H (js "//my") (js ".example/http")); [reflexivity|].
  intros a' b' E.
  destruct a' as [|c0 [|c1 [|c2 [|c3 a']]]]; [discriminate E..|].
  simpl. lia.
Defined.

(** X12. The address of the log stream on the container page.  Without a
    selected container it is [null], and [connect()] of a hook given that
    address does nothing.  With a container it is never empty; for an API
    base that starts with [http] the scheme becomes [ws] (so [https]
    becomes [wss]) and the path of the container's log stream is
    appended; with no API base configured, or an empty one, it is
    [ws://localhost:8000/api/ws/logs/] followed by the container id. *)
Theorem wsUrl_scheme VITE_API_URL id :
  wsUrl VITE_API_URL None = None
  /\ url_falsy (wsUrl VITE_API_URL (Some id)) = false
  /\ (forall rest, VITE_API_URL = Some (js "http" ++ rest) ->
      wsUrl VITE_API_URL (Some id)
      = Some (js "ws" ++ rest ++ js "/api/ws/logs/" ++ id))
  /\ (VITE_API_URL = None \/ VITE_API_URL = Some [] ->
      wsUrl VITE_API_URL (Some id)
      = Some (js "ws://localhost:8000/api/ws/logs/" ++ id))
  /\ (forall env s, url env = wsUrl VITE_API_URL None -> connect env s = s).
Proof.
  split; [done|]. split; [|split; [|split]]; cycle 3.
  { intros env s Hu. unfold connect. by rewrite Hu. }
  - unfold wsUrl, url_falsy.
    destruct (String_replace _ _ _ ++ _) as [|c u] eqn:E; [|done].
    apply app_eq_nil in E as [_ E]. discriminate E.
  - intros rest ->. unfold wsUrl.
    assert (E : API_BASE_URL (Some (js "http" ++ rest)) = js "http" ++ rest)
      by reflexivity.
    by rewrite E, String_replace_here, <- app_assoc.
  - by intros [->| ->].
Qed.

(** ** The two consumers of the log stream *)

Lemma is_log_js_or ty :
  is_log (js_or ty (JString (js "message"))) = is_log (default JNull ty).
Proof.
  destruct ty as [v|]; [|done]. unfold js_or. cbn [default].
  destruct (truthy v) eqn:Ht; [done|].
  destruct v as [| |n|t| |]; try done. by destruct t.
Qed.

(** X13. A frame that is not JSON reaches the page's [onMessage] as a
    message of type [message] (with the frame text as its data, unless
    the frame is empty), and the page ignores it: [containerLogs] is
    unchanged.  The log viewer's own handler adds the frame text to its
    lines. *)
Theorem plain_text_frame_consumers raw now logs :
  JSON_parse raw = None ->
  exists m, build_message raw now = Some m
    /\ type m = JString (js "message")
    /\ (raw <> [] -> data m = JString raw)
    /\ container_onMessage m logs = Some logs
    /\ viewer_onmessage raw logs = logs ++ [JString raw].
Proof.
  intros Hp.
  assert (Hv : viewer_onmessage raw logs = logs ++ [JString raw])
    by (unfold viewer_onmessage; by rewrite Hp).
  destruct raw as [|c raw].
  - eexists. split; [unfold build_message; rewrite Hp; reflexivity|].
    split; [by destruct now|]. split; [done|]. split; [|done].
    unfold container_onMessage. by destruct now.
  - rewrite (build_message_unparsable (c :: raw) now Hp) by done.
    eexists. split; [done|]. by repeat split.
Qed.

(** X13 on the frame [line1]. *)
Lemma plain_text_frame_consumers_witness :
  JSON_parse (js "line1") = None
  /\ exists m, build_message (js "line1") (js "now") = Some m
       /\ container_onMessage m [] = Some []
       /\ viewer_onmessage (js "line1") [] = [JString (js "line1")].
Proof.
  split; [reflexivity|].
  destruct (plain_text_frame_consumers (js "line1") (js "now") [] eq_refl)
    as (m & Hb & _ & _ & Hc & Hv).
  exists m. split; [exact Hb|]. split; [exact Hc | exact Hv].
Defined.

(** X14. The page's [onMessage] never throws on a message the hook
    built: it leaves [containerLogs] as it is or appends one truthy
    value. *)
Theorem container_onMessage_returns raw now m logs :
  build_message raw now = Some m ->
  exists logs', container_onMessage m logs = Some logs'
    /\ (logs' = logs \/ exists line, truthy line = true /\ logs' = logs ++ [line]).
Proof.
  unfold build_message.
  set (messageData := match JSON_parse raw with Some v => v | None => _ end).
  clearbody messageData.
  destruct (get_property messageData (js "type")) as [ty|] eqn:Hty; [|done].
  destruct (get_property messageData (js "data")) as [da|] eqn:Hda; [|done].
  destruct (get_property messageData (js "timestamp")) as [ts|]; [|done].
  cbn [mbind option_bind]. intros [= <-].
  unfold container_onMessage. cbn [type data].
  destruct (is_log (js_or ty (JString (js "message")))) eqn:Hl;
    [|exists logs; by auto].
  assert (Hobj : exists fields, messageData = JObject fields).
  { rewrite is_log_js_or in Hl. destruct ty as [v|]; [|done].
    destruct messageData; try done. by eauto. }
  destruct Hobj as [fields ->].
  assert (Hd : exists line, get_property (js_or da (JObject fields)) (js "message")
                            = Some line).
  { unfold js_or. destruct da as [v|]; [|by eauto].
    destruct (truthy v) eqn:Ht; [|by eauto].
    destruct v; try done; by eauto. }
  destruct Hd as [line ->]. cbn [mbind option_bind].
  destruct line as [v|]; cbn [absent_or_falsy default]; [|exists logs; by auto].
  destruct (truthy v) eqn:Ht; cbn [negb]; [|exists logs; by auto].
  exists (logs ++ [v]). split; [done|]. right. by exists v.
Qed.

(** X14 on a frame that nests the line under [data]. *)
Lemma container_onMessage_returns_witness :
  build_message (jsq "{'type':'log','data':{'message':'x'}}") (js "now")
  = Some {| type := JString (js "log");
            data := JObject [(js "message", JString (js "x"))];
            timestamp := JString (js "now") |}
  /\ exists logs',
       container_onMessage
         {| type := JString (js "log");
            data := JObject [(js "message", JString (js "x"))];
            timestamp := JString (js "now") |} [] = Some logs'.
Proof.
  split; [reflexivity|].
  destruct (container_onMessage_returns
              (jsq "{'type':'log','data':{'message':'x'}}") (js "now")
              {| type := JString (js "log");
                 data := JObject [(js "message", JString (js "x"))];
                 timestamp := JString (js "now") |} [] eq_refl)
    as (logs' & H & _).
  by exists logs'.
Defined.



(** A frame that nests the line under [data] is read by the page and not
    by the viewer; the frame whose [data] is the line itself is read by
    neither. *)
Example nested_frame_consumers :
  (m ← build_message (jsq "{'type':'log','data':{'message':'x'}}") (js "now");
   container_onMessage m []) = Some [JString (js "x")]
  /\ viewer_onmessage (jsq "{'type':'log','data':{'message':'x'}}") [] = []
  /\ (m ← build_message (jsq "{'type':'log','data':'line2'}") (js "now");
      container_onMessage m []) = Some []
  /\ viewer_onmessage (jsq "{'type':'log','data':'line2'}") [] = []
  /\ viewer_onmessage (js "null") [] = [JString (js "null")].
Proof. by vm_compute. Qed.

(** ** Log levels *)

Lemma level_at_word pre post s w : level_at pre post s = Some w -> w ∈ level_words.
Proof.
  unfold level_at. intros H.
  apply fmap_Some in H as ([i w'] & Hf & ->).
  apply list_find_Some in Hf as (Hi & _). by eapply list_elem_of_lookup_2.
Qed.

Lemma first_match_word pre post s w :
  first_match (level_at pre post) s = Some w -> w ∈ level_words.
Proof.
  induction s as [|c s IH]; simpl.
  - destruct (level_at pre post []) eqn:E; [|done].
    intros [= <-]. by eapply level_at_word.
  - destruct (level_at pre post (c :: s)) eqn:E; [|done].
    intros [= <-]. by eapply level_at_word.
Qed.

Lemma parse_level_word log : parse_level log ∈ level_words.
Proof.
  unfold parse_level.
  destruct (first_match (level_at [91%N] [93%N]) log) eqn:E1;
    [by eapply first_match_word|].
  destruct (first_match (level_at [] [58%N]) log) eqn:E2;
    [by eapply first_match_word|].
  destruct (first_match (level_at (js "level=") []) log) eqn:E3;
    [by eapply first_match_word|].
  unfold level_words. do 2 apply list_elem_of_further. apply list_elem_of_here.
Qed.

(** X16. The level filter of the viewer.  [all] keeps every line; every
    line is kept by exactly one of the filters [error], [warn], [info]
    and [debug], so the four filtered lists have the lines of the whole
    between them. *)
Theorem level_filters_partition logs :
  filter_by_level (js "all") logs = logs
  /\ (forall log, log ∈ logs ->
      exists level, level ∈ level_words
        /\ log ∈ filter_by_level level logs
        /\ forall level', level' <> js "all" ->
             log ∈ filter_by_level level' logs -> level' = level)
  /\ length (filter_by_level (js "error") logs)
     + length (filter_by_level (js "warn") logs)
     + length (filter_by_level (js "info") logs)
     + length (filter_by_level (js "debug") logs) = length logs.
Proof.
  split; [done|]. split.
  - intros log Hin. exists (parse_level log).
    split; [apply parse_level_word|].
    assert (Hall : forall level, level <> js "all" ->
              filter_by_level level logs
              = filter (fun log => parse_level log = level) logs).
    { intros level Hne. unfold filter_by_level, JsString_eqb.
      by rewrite bool_decide_eq_false_2. }
    split.
    + rewrite Hall.
      * by apply list_elem_of_filter.
      * intros E. pose proof (parse_level_word log) as Hw. rewrite E in Hw.
        by apply (bool_decide_eq_false_1 (js "all" ∈ level_words)) in Hw.
    + intros level' Hne. rewrite (Hall _ Hne).
      by intros [<- _]%list_elem_of_filter.
  - change (filter_by_level (js "error") logs)
      with (filter (fun log => parse_level log = js "error") logs).
    change (filter_by_level (js "warn") logs)
      with (filter (fun log => parse_level log = js "warn") logs).
    change (filter_by_level (js "info") logs)
      with (filter (fun log => parse_level log = js "info") logs).
    change (filter_by_level (js "debug") logs)
      with (filter (fun log => parse_level log = js "debug") logs).
    induction logs as [|log logs IH]; [done|].
    rewrite !filter_cons. pose proof (parse_level_word log) as Hw.
    unfold level_words in Hw.
    apply elem_of_cons in Hw as [Hw|Hw];
      [|apply elem_of_cons in Hw as [Hw|Hw];
        [|apply elem_of_cons in Hw as [Hw|Hw];
          [|apply list_elem_of_singleton in Hw]]];
      rewrite Hw; repeat case_decide; simpl; try lia; exfalso;
      repeat match goal with
             | H : js _ = js _ |- _ => first [by vm_compute in H | clear H]
             end; congruence.
Qed.

(** ** Letter case *)

Lemma lower_ascii_idemp c : lower_ascii (lower_ascii c) = lower_ascii c.
Proof.
  unfold lower_ascii.
  destruct ((65 <=? c) && (c <=? 90))%N eqn:E; [|by rewrite E].
  apply andb_prop in E as [E1%N.leb_le E2%N.leb_le].
  assert (H : ((65 <=? c + 32) && (c + 32 <=? 90))%N = false).
  { apply andb_false_iff. right. apply N.leb_gt. lia. }
  by rewrite H.
Qed.

Lemma starts_with_ci_fold p s :
  starts_with_ci p (lower_ascii <$> s) = starts_with_ci p s.
Proof.
  revert s. induction p as [|a p IH]; intros [|b s]; simpl; try done.
  by rewrite lower_ascii_idemp, IH.
Qed.

Lemma level_at_fold pre post s :
  level_at pre post (lower_ascii <$> s) = level_at pre post s.
Proof.
  unfold level_at. f_equal.
  induction level_words as [|w ws IH]; [done|].
  cbn [list_find]. rewrite starts_with_ci_fold.
  case_decide; [done|]. by rewrite IH.
Qed.

Lemma first_match_fold pre post s :
  first_match (level_at pre post) (lower_ascii <$> s)
  = first_match (level_at pre post) s.
Proof.
  induction s as [|c s IH].
  - done.
  - change (lower_ascii <$> c :: s) with (lower_ascii c :: (lower_ascii <$> s)).
    cbn [first_match].
    change (lower_ascii c :: (lower_ascii <$> s)) with (lower_ascii <$> c :: s).
    rewrite level_at_fold. by rewrite IH.
Qed.

(** X17. The level and the colour of a line do not depend on the case of
    its ASCII letters. *)
Theorem parse_level_ignores_case log log' :
  lower_ascii <$> log = lower_ascii <$> log' ->
  parse_level log = parse_level log'
  /\ getLogLevelStyle log = getLogLevelStyle log'.
Proof.
  intros E.
  assert (P : forall l, parse_level (lower_ascii <$> l) = parse_level l)
    by (intros l; unfold parse_level; by rewrite !first_match_fold).
  assert (E' : parse_level log = parse_level log') by by rewrite <- P, E, P.
  split; [done|]. unfold getLogLevelStyle. by rewrite E'.
Qed.

(** X17 on a line in mixed case. *)
Lemma parse_level_ignores_case_witness :
  lower_ascii <$> js "Level=WARN Disk Full" = lower_ascii <$> js "level=warn disk full"
  /\ getLogLevelStyle (js "Level=WARN Disk Full")
     = getLogLevelStyle (js "level=warn disk full").
Proof.
  split; [reflexivity|].
  apply (parse_level_ignores_case (js "Level=WARN Disk Full")
           (js "level=warn disk full")).
  reflexivity.
Defined.

(** ** Bracketed level tags *)

Lemma lower_ascii_bracket c : lower_ascii c = 91%N -> c = 91%N.
Proof.
  unfold lower_ascii. destruct ((65 <=? c) && (c <=? 90))%N eqn:E; [|done].
  apply andb_prop in E as [E1%N.leb_le E2%N.leb_le]. lia.
Qed.

Lemma level_at_bracket_head c s : c <> 91%N -> level_at [91%N] [93%N] (c :: s) = None.
Proof.
  intros Hc. unfold level_at.
  assert (H : list_find (fun w => starts_with_ci ([91%N] ++ w ++ [93%N]) (c :: s) = true)
                level_words = None); [|by rewrite H].
  apply list_find_None, Forall_forall. intros w _. cbn [app starts_with_ci].
  destruct (lower_ascii 91 =? lower_ascii c)%N eqn:E; [|done].
  apply N.eqb_eq in E. symmetry in E. by apply lower_ascii_bracket in E.
Qed.

Lemma first_match_skip a rest :
  91%N ∉ a ->
  first_match (level_at [91%N] [93%N]) (a ++ rest)
  = first_match (level_at [91%N] [93%N]) rest.
Proof.
  induction a as [|c a IH]; intros Hn; [done|].
  apply not_elem_of_cons in Hn as [Hc Hn].
  change ((c :: a) ++ rest) with (c :: (a ++ rest)). cbn [first_match].
  rewrite level_at_bracket_head by done. by apply IH.
Qed.

Lemma starts_with_ci_same u p s :
  starts_with_ci ((lower_ascii <$> u) ++ p) (u ++ s) = starts_with_ci p s.
Proof.
  induction u as [|c u IH]; [done|].
  change (starts_with_ci (lower_ascii c :: ((lower_ascii <$> u) ++ p)) (c :: (u ++ s))
          = starts_with_ci p s).
  cbn [starts_with_ci]. by rewrite lower_ascii_idemp, N.eqb_refl, IH.
Qed.

Lemma level_words_first u w y :
  w ∈ level_words -> y ∈ level_words -> lower_ascii <$> u = w -> y <> w ->
  forall s, starts_with_ci (y ++ [93%N]) (u ++ s) = false.
Proof.
  intros Hw Hy Hu Hne s.
  destruct u as [|c u]; [subst w; by apply (bool_decide_eq_false_1 _) in Hw|].
  assert (Hc : exists y0 y', y = y0 :: y' /\ lower_ascii y0 <> lower_ascii c).
  { change (lower_ascii <$> c :: u) with (lower_ascii c :: (lower_ascii <$> u)) in Hu.
    unfold level_words in Hw, Hy.
    repeat (apply elem_of_cons in Hw as [Hw|Hw]);
      try (by apply elem_of_nil in Hw);
      rewrite Hw in Hu, Hne; injection Hu as Hc _; rewrite Hc;
      repeat (apply elem_of_cons in Hy as [Hy|Hy]);
      try (by apply elem_of_nil in Hy);
      subst y; try done; eexists _, _; (split; [reflexivity|]); by vm_compute. }
  destruct Hc as (y0 & y' & -> & Hc).
  change (starts_with_ci (y0 :: (y' ++ [93%N])) (c :: (u ++ s)) = false).
  cbn [starts_with_ci]. by apply N.eqb_neq in Hc as ->.
Qed.

Lemma level_at_bracket u b w :
  w ∈ level_words -> lower_ascii <$> u = w ->
  level_at [91%N] [93%N] ([91%N] ++ u ++ [93%N] ++ b) = Some w.
Proof.
  intros Hw Hu. unfold level_at.
  apply list_elem_of_lookup in Hw as [i Hi].
  assert (H : list_find
                (fun w => starts_with_ci ([91%N] ++ w ++ [93%N])
                            ([91%N] ++ u ++ [93%N] ++ b) = true)
                level_words = Some (i, w)); [|by rewrite H].
  apply list_find_Some. split; [done|]. split.
  - cbn [app starts_with_ci]. rewrite N.eqb_refl. cbn [andb].
    rewrite <- Hu.
    change (starts_with_ci ((lower_ascii <$> u) ++ [93%N]) (u ++ [93%N] ++ b) = true).
    rewrite starts_with_ci_same. cbn [app starts_with_ci].
    by rewrite N.eqb_refl.
  - intros j y Hj Hlt. cbn [app starts_with_ci]. rewrite N.eqb_refl. cbn [andb].
    assert (Hne : y <> w).
    { intros ->.
      assert (Hnd : NoDup level_words) by (apply (bool_decide_unpack _); by vm_compute).
      pose proof (NoDup_lookup _ _ _ _ Hnd Hi Hj). lia. }
    rewrite (level_words_first u w y); [done| |by eapply list_elem_of_lookup_2|done..].
    by eapply list_elem_of_lookup_2.
Qed.

(** X18. A bracketed tag decides the level: if the first opening bracket
    of a line starts a tag [[level]], in any letter case, the level is
    that tag's, whatever [level:] or [level=] markers the line has before
    or after it. *)
Theorem bracket_tag_wins a u b w :
  w ∈ level_words -> lower_ascii <$> u = w -> 91%N ∉ a ->
  parse_level (a ++ [91%N] ++ u ++ [93%N] ++ b) = w.
Proof.
  intros Hw Hu Ha. unfold parse_level.
  rewrite first_match_skip by done.
  assert (E : first_match (level_at [91%N] [93%N]) ([91%N] ++ u ++ [93%N] ++ b)
              = Some w).
  { change ([91%N] ++ u ++ [93%N] ++ b) with (91%N :: (u ++ [93%N] ++ b)).
    cbn [first_match].
    change (91%N :: (u ++ [93%N] ++ b)) with ([91%N] ++ u ++ [93%N] ++ b).
    by rewrite (level_at_bracket u b w). }
  by rewrite E.
Qed.

(** X18 on a line with a colon marker before the tag. *)
Lemma bracket_tag_wins_witness :
  parse_level (js "error: disk full " ++ [91%N] ++ js "WARN" ++ [93%N] ++ js " retrying")
  = js "warn".
Proof.
  apply (bracket_tag_wins (js "error: disk full ") (js "WARN") (js " retrying")
           (js "warn")).
  - apply (bool_decide_unpack _). by vm_compute.
  - reflexivity.
  - apply (bool_decide_unpack _). by vm_compute.
Defined.
